(** * The local API shim of the resume builder (client/src/configs/api.js)

    A shallow embedding of the localStorage-backed request router and of
    the platform pieces it relies on, followed by the properties proved
    about it.

    Conventions of the embedding.
    - A JavaScript string is a [string]; every [ascii] is one code unit, so
      the strings covered are the Latin-1 ones.
    - A JavaScript value that went through JSON is a [value]; [undefined]
      is the [None] of an [option value].  Numbers are the integers.
    - A JavaScript object is a finite map from property names to values.
    - A call that throws returns [Throw]; a rejected promise of the async
      router is the same thing.
    - The clock and the random generator are sequences of readings; the
      world counts how many were taken. *)

From Stdlib Require Import ZArith Lia Ascii String.
From stdpp Require Import gmap strings list fin_maps pretty sorting.

Set Warnings "-register-all".
Local Open Scope string_scope.
Local Open Scope Z_scope.

(** ** Strings *)

Module Str.

Definition dquote : ascii := "034"%char.
Definition percent : ascii := "037"%char.

(** The characters [\s] matches and [trim] strips, among the code units
    below 256: tab, line feed, vertical tab, form feed, carriage return,
    space and no-break space. *)
Definition is_ws (c : ascii) : bool :=
  let n := N_of_ascii c in
  ((9 <=? n) && (n <=? 13) || (n =? 32) || (n =? 160))%N.

(** The line terminators a [.] of a regular expression does not match. *)
Definition is_line_terminator (c : ascii) : bool :=
  let n := N_of_ascii c in ((n =? 10) || (n =? 13))%N.

Fixpoint trimStart (s : string) : string :=
  match s with
  | "" => ""
  | String c r => if is_ws c then trimStart r else s
  end.

Fixpoint trimEnd (s : string) : string :=
  match s with
  | "" => ""
  | String c r =>
      match trimEnd r with
      | "" => if is_ws c then "" else String c ""
      | t => String c t
      end
  end.

Definition trim (s : string) : string := trimEnd (trimStart s).

(** Whether [s] starts with a character that is not white space. *)
Definition starts_nonws (s : string) : bool :=
  match s with
  | String c _ => negb (is_ws c)
  | "" => false
  end.

(** [s.replace(/\s+/g, SPACE)]: every maximal run of white space becomes
    one space.  [in_run] tells that the previous character was white space. *)
Fixpoint collapse_from (in_run : bool) (s : string) : string :=
  match s with
  | "" => ""
  | String c r =>
      if is_ws c
      then if in_run then collapse_from true r
           else String " " (collapse_from true r)
      else String c (collapse_from false r)
  end.

Definition collapse_ws (s : string) : string := collapse_from false s.

(** The text after the first double quote of [s]. *)
Fixpoint after_first_quote (s : string) : option string :=
  match s with
  | "" => None
  | String c r => if Ascii.eqb c dquote then Some r else after_first_quote r
  end.

(** The text before the last double quote of [s]. *)
Fixpoint before_last_quote (s : string) : option string :=
  match s with
  | "" => None
  | String c r =>
      match before_last_quote r with
      | Some t => Some (String c t)
      | None => if Ascii.eqb c dquote then Some "" else None
      end
  end.

(** The text before the first double quote of [s]. *)
Fixpoint before_first_quote (s : string) : option string :=
  match s with
  | "" => None
  | String c r =>
      if Ascii.eqb c dquote then Some ""
      else String c <$> before_first_quote r
  end.

(** Capture group 1 of [s.match(re)] for the expression [re] of
    [enhanceText]: a double quote, a group holding the starred class of all
    characters (white space or not), a double quote.  The match starts at
    the leftmost double quote, and the starred class, being greedy and
    matching every character, runs up to the last double quote of [s]. *)
Definition match_quoted (s : string) : option string :=
  after_first_quote s ≫= before_last_quote.

Fixpoint startsWith (p s : string) : bool :=
  match p, s with
  | "", _ => true
  | String a p', String b s' => Ascii.eqb a b && startsWith p' s'
  | _, _ => false
  end.

Fixpoint drop (n : nat) (s : string) : string :=
  match n, s with
  | O, _ => s
  | S n', String _ r => drop n' r
  | S _, "" => ""
  end.

Fixpoint take (n : nat) (s : string) : string :=
  match n, s with
  | S n', String c r => String c (take n' r)
  | _, _ => ""
  end.

Definition endsWith (p s : string) : bool :=
  (String.length p <=? String.length s)%nat
  && String.eqb (drop (String.length s - String.length p) s) p.

Fixpoint existsb (f : ascii -> bool) (s : string) : bool :=
  match s with
  | "" => false
  | String c r => f c || existsb f r
  end.

Fixpoint join (sep : string) (l : list string) : string :=
  match l with
  | [] => ""
  | [x] => x
  | x :: r => x +:+ sep +:+ join sep r
  end.

(** Capture group 1 of [s.match(/^PREFIX(.+)$/)] for a literal prefix: the
    rest of [s] after the prefix, when it is not empty and holds no line
    terminator. *)
Definition match_param (prefix s : string) : option string :=
  let rest := drop (String.length prefix) s in
  if startsWith prefix s
     && negb (String.eqb rest "")
     && negb (existsb is_line_terminator rest)
  then Some rest else None.

End Str.

(** ** Values *)

Inductive value : Type :=
| VNull
| VBool (b : bool)
| VNum (n : Z)
| VStr (s : string)
| VArr (l : list value)
| VObj (o : gmap string value).

Abbreviation props := (gmap string value).

(** An object literal. *)
Definition obj (l : list (string * value)) : value := VObj (list_to_map l).

(** [!!v] for a value and for a possibly undefined one. *)
Definition truthy (v : value) : bool :=
  match v with
  | VNull => false
  | VBool b => b
  | VNum n => negb (n =? 0)
  | VStr s => negb (String.eqb s "")
  | VArr _ | VObj _ => true
  end.

Definition truthy_opt (v : option value) : bool :=
  match v with Some v => truthy v | None => false end.

(** [a || b] where [b] is defined. *)
Definition or_else (a : option value) (b : value) : value :=
  match a with
  | Some v => if truthy v then v else b
  | None => b
  end.

(** [a === b].  Two objects or arrays are equal when they are the same
    reference; the ones compared here come from different calls of
    [JSON.parse] or from the request body, so they never are. *)
Definition strict_eq (a b : option value) : bool :=
  match a, b with
  | None, None => true
  | Some VNull, Some VNull => true
  | Some (VBool x), Some (VBool y) => Bool.eqb x y
  | Some (VNum x), Some (VNum y) => x =? y
  | Some (VStr x), Some (VStr y) => String.eqb x y
  | _, _ => false
  end.

(** The own enumerable properties of a value, which is what an object
    spread [{...v}] copies: the entries of an object, the elements of an
    array and the characters of a string under their indices, nothing for
    the other values. *)
Definition indexed (l : list value) : props :=
  list_to_map (imap (fun i x => (pretty i, x)) l).

Fixpoint chars (s : string) : list value :=
  match s with
  | "" => []
  | String c r => VStr (String c "") :: chars r
  end.

Definition own_props (v : value) : props :=
  match v with
  | VObj o => o
  | VArr l => indexed l
  | VStr s => indexed (chars s)
  | VNull | VBool _ | VNum _ => ∅
  end.

(** [{...a, ...b}]: the properties of [b] win. *)
Definition spread2 (a b : value) : props := own_props b ∪ own_props a.

(** [String(v)], which is [v.toString()] for every [v] but null.  A number
    is written with all its digits, as JavaScript does below 10^21. *)
Fixpoint to_string (v : value) : string :=
  match v with
  | VNull => "null"
  | VBool true => "true"
  | VBool false => "false"
  | VNum n => pretty n
  | VStr s => s
  | VArr l =>
      Str.join ","
        (map (fun x => match x with VNull => "" | _ => to_string x end) l)
  | VObj _ => "[object Object]"
  end.

(** ** Checking a range of numbers *)

(** A check of a property of the [n] numbers from [i] on, by running it. *)
Fixpoint all_from (n : nat) (i : Z) (f : Z -> bool) : bool :=
  match n with
  | O => true
  | S n' => f i && all_from n' (i + 1) f
  end.

(** ** Platform: dates, numbers in base 36, URI decoding *)

Module Platform.

Definition digit_char (d : Z) : ascii := ascii_of_N (Z.to_N (48 + d)).

Definition char_digit (c : ascii) : option Z :=
  let n := Z.of_N (N_of_ascii c) in
  if (48 <=? n) && (n <=? 57) then Some (n - 48) else None.

(** The [w] low decimal digits of [n], most significant first. *)
Fixpoint digits (w : nat) (n : Z) : string :=
  match w with
  | O => ""
  | S w' => String (digit_char (n / 10 ^ Z.of_nat w' mod 10)) (digits w' n)
  end.

(** Reads [w] decimal digits off the front of [s], continuing the number
    [acc]. *)
Fixpoint read_digits (w : nat) (acc : Z) (s : string) : option (Z * string) :=
  match w, s with
  | O, _ => Some (acc, s)
  | S w', String c r => d ← char_digit c; read_digits w' (10 * acc + d) r
  | S _, "" => None
  end.

Definition expect (c : ascii) (s : string) : option string :=
  match s with
  | String c' r => if Ascii.eqb c c' then Some r else None
  | "" => None
  end.

(** Days since 1970-01-01 to proleptic Gregorian year, month, day, and
    back. *)
Definition civil_from_days (z : Z) : Z * Z * Z :=
  let z := z + 719468 in
  let era := z / 146097 in
  let doe := z mod 146097 in
  let yoe := (doe - doe / 1460 + doe / 36524 - doe / 146096) / 365 in
  let doy := doe - (365 * yoe + yoe / 4 - yoe / 100) in
  let mp := (5 * doy + 2) / 153 in
  let d := doy - (153 * mp + 2) / 5 + 1 in
  let m := if mp <? 10 then mp + 3 else mp - 9 in
  let y := yoe + era * 400 in
  (if m <=? 2 then y + 1 else y, m, d).

Definition days_from_civil (y m d : Z) : Z :=
  let y := if m <=? 2 then y - 1 else y in
  let era := y / 400 in
  let yoe := y mod 400 in
  let doy := (153 * (if 2 <? m then m - 3 else m + 9) + 2) / 5 + d - 1 in
  let doe := yoe * 365 + yoe / 4 - yoe / 100 + doy in
  era * 146097 + doe - 719468.

Definition is_leap (y : Z) : bool :=
  (y mod 4 =? 0) && (negb (y mod 100 =? 0) || (y mod 400 =? 0)).

Definition days_in_month (y m : Z) : Z :=
  if m =? 2 then (if is_leap y then 29 else 28)
  else if (m =? 4) || (m =? 6) || (m =? 9) || (m =? 11) then 30
  else 31.

Definition ms_per_day : Z := 86400000.

(** The largest time value of a Date. *)
Definition max_time : Z := 8640000000000000.

(** [new Date(t).toISOString()] for a time value [t] in milliseconds since
    the epoch: YYYY-MM-DDTHH:mm:ss.sssZ, the year with a sign and six
    digits outside 0..9999. *)
Definition year_string (y : Z) : string :=
  if (0 <=? y) && (y <=? 9999) then digits 4 y
  else (if y <? 0 then "-" else "+") +:+ digits 6 (Z.abs y).

Definition toISOString (t : Z) : string :=
  let ms := t mod ms_per_day in
  let '(y, m, d) := civil_from_days (t / ms_per_day) in
  year_string y +:+ "-" +:+ digits 2 m +:+ "-" +:+ digits 2 d +:+ "T"
  +:+ digits 2 (ms / 3600000) +:+ ":" +:+ digits 2 (ms / 60000 mod 60)
  +:+ ":" +:+ digits 2 (ms / 1000 mod 60) +:+ "." +:+ digits 3 (ms mod 1000)
  +:+ "Z".

Definition read_year (s : string) : option (Z * string) :=
  match s with
  | String c r =>
      if Ascii.eqb c "+" then read_digits 6 0 r
      else if Ascii.eqb c "-" then
        '(y, r') ← read_digits 6 0 r;
        if y =? 0 then None else Some (- y, r')
      else read_digits 4 0 s
  | "" => None
  end.

(** [Date.parse(s)], with [None] for NaN.  Covered: the format
    [toISOString] writes, with every field in its range.  What an engine
    makes of another string (a date without a time, a day past the end of
    its month, a format of its own) is left to it; such strings are outside
    the embedding, where they have no time value, and what is proved of the
    order of the list is proved for time values read here. *)
Definition date_parse (s : string) : option Z :=
  '(y, s) ← read_year s;
  s ← expect "-" s;
  '(m, s) ← read_digits 2 0 s;
  s ← expect "-" s;
  '(d, s) ← read_digits 2 0 s;
  s ← expect "T" s;
  '(h, s) ← read_digits 2 0 s;
  s ← expect ":" s;
  '(mi, s) ← read_digits 2 0 s;
  s ← expect ":" s;
  '(sec, s) ← read_digits 2 0 s;
  s ← expect "." s;
  '(ms, s) ← read_digits 3 0 s;
  s ← expect "Z" s;
  let t := days_from_civil y m d * ms_per_day
           + h * 3600000 + mi * 60000 + sec * 1000 + ms in
  if String.eqb s ""
     && (1 <=? m) && (m <=? 12) && (1 <=? d) && (d <=? days_in_month y m)
     && ((h <=? 23) || (h =? 24) && (mi =? 0) && (sec =? 0) && (ms =? 0))
     && (mi <=? 59) && (sec <=? 59) && (Z.abs t <=? max_time)
  then Some t else None.

(** [new Date(x).getTime()] for a possibly undefined value [x], with [None]
    for NaN: a string is parsed, an array or object is first turned into
    its string, undefined has no time value, the other values are taken as
    a number of milliseconds. *)
Definition time_clip (t : Z) : option Z :=
  if Z.abs t <=? max_time then Some t else None.

Definition date_time (x : option value) : option Z :=
  match x with
  | None => None
  | Some VNull => Some 0
  | Some (VBool b) => Some (if b then 1 else 0)
  | Some (VNum n) => time_clip n
  | Some (VStr s) => date_parse s
  | Some v => date_parse (to_string v)
  end.

(** [n.toString(36)] for an integer [n]. *)
Definition digit36 (d : Z) : ascii :=
  ascii_of_N (Z.to_N (if d <? 10 then 48 + d else 87 + d)).

Fixpoint base36_go (fuel : nat) (n : Z) (acc : string) : string :=
  match fuel with
  | O => acc
  | S fuel' =>
      let acc' := String (digit36 (n mod 36)) acc in
      if n <? 36 then acc' else base36_go fuel' (n / 36) acc'
  end.

Definition toString36 (n : Z) : string :=
  let go m := base36_go (S (Z.to_nat (Z.log2 m))) m "" in
  if n <? 0 then "-" +:+ go (- n) else go n.

(** [x.toString(36).slice(2, 10)] for a number [x] of [0, 1) whose digits
    after the point in base 36 are [ds]: at most eight of them. *)
Definition fraction36 (ds : list nat) : string :=
  string_of_list_ascii
    (map (fun d => digit36 (Z.of_nat d mod 36)) (firstn 8 ds)).

(** [decodeURIComponent]: [None] is the URIError.  An escape sequence is
    the UTF-8 encoding of a character; the characters of this string type
    are those up to 255, encoded in one byte or in two bytes led by C2 or
    C3.  A sequence for a character above 255 has no image here and is
    refused like a malformed one: such paths are outside the embedding. *)
Inductive unit8 := Lit (c : ascii) | Esc (b : Z).

Definition hex_val (c : ascii) : option Z :=
  let n := Z.of_N (N_of_ascii c) in
  if (48 <=? n) && (n <=? 57) then Some (n - 48)
  else if (65 <=? n) && (n <=? 70) then Some (n - 55)
  else if (97 <=? n) && (n <=? 102) then Some (n - 87)
  else None.

Fixpoint unescape (s : string) : option (list unit8) :=
  match s with
  | "" => Some []
  | String c r =>
      if Ascii.eqb c Str.percent then
        match r with
        | String a (String b r') =>
            h ← hex_val a; l ← hex_val b;
            (Esc (16 * h + l) ::.) <$> unescape r'
        | _ => None
        end
      else (Lit c ::.) <$> unescape r
  end.

Definition byte_char (b : Z) : ascii := ascii_of_N (Z.to_N b).

Fixpoint utf8_decode (l : list unit8) : option string :=
  match l with
  | [] => Some ""
  | Lit c :: r => String c <$> utf8_decode r
  | Esc b :: r =>
      if b <? 128 then String (byte_char b) <$> utf8_decode r
      else if (b =? 194) || (b =? 195) then
        match r with
        | Esc b2 :: r' =>
            if (128 <=? b2) && (b2 <? 192)
            then String (byte_char ((b - 192) * 64 + (b2 - 128)))
                   <$> utf8_decode r'
            else None
        | _ => None
        end
      else None
  end.

Definition decodeURIComponent (s : string) : option string :=
  unescape s ≫= utf8_decode.

(** The first and the last day of the years 0000 to 9999. *)
Definition min_day : Z := -719528.
Definition max_day : Z := 2932896.

(** The time values [toISOString] writes with a four-digit year. *)
Definition min_iso_time : Z := -62167219200000.
Definition max_iso_time : Z := 253402300799999.

End Platform.

(** ** Failures *)

(** The object [axiosLikeError] builds:
    [{message, response: {status, data: {message}}}]. *)
Record error_data := { data_message : string }.
Record error_response := { status : Z; data : error_data }.
Record axios_error := { message : string; response : error_response }.

(** What a call can throw: the structured error of the shim, or an
    exception of the platform. *)
Inductive exn :=
| Rejected (e : axios_error)
| TypeError
| SyntaxError
| URIError.

Inductive outcome (A : Type) :=
| Return (a : A)
| Throw (e : exn).
Arguments Return {A} a.
Arguments Throw {A} e.

#[global] Instance outcome_ret : MRet outcome := @Return.
#[global] Instance outcome_bind : MBind outcome := fun A B f o =>
  match o with Return a => f a | Throw e => Throw e end.
#[global] Instance outcome_fmap : FMap outcome := fun A B f o =>
  match o with Return a => Return (f a) | Throw e => Throw e end.

(** ** The browser around the shim *)

(** A string kept in localStorage or sent as a form part, by what the shim
    can see of it: whether it is empty and what [JSON.parse] makes of it.
    [Json v] is a text that [JSON.parse] reads as [v], as
    [JSON.stringify(v)] is; [Raw s] is the string [s], one that
    [JSON.parse] refuses (a bare word such as the token, the empty string,
    a truncated document). *)
Inductive text :=
| Json (v : value)
| Raw (s : string).

Definition JSON_parse (t : text) : outcome value :=
  match t with
  | Json v => Return v
  | Raw _ => Throw SyntaxError
  end.

Definition JSON_stringify (v : value) : text := Json v.

(** [!!raw] for what [getItem] or [FormData.get] returned. *)
Definition text_truthy (t : option text) : bool :=
  match t with
  | Some (Json _) => true
  | Some (Raw s) => negb (String.eqb s "")
  | None => false
  end.

(** localStorage, and the position in the sequence of readings of the
    clock and of the random generator made so far. *)
Record world := { ls : gmap string text; tick : nat }.

Definition set_ls (f : gmap string text -> gmap string text) (w : world) : world :=
  {| ls := f (ls w); tick := tick w |}.

(** A computation of the shim: it reads and writes the world and returns
    or throws. *)
Definition M (A : Type) : Type := world -> outcome A * world.

Definition ret {A} (a : A) : M A := fun w => (Return a, w).
Definition throw {A} (e : exn) : M A := fun w => (Throw e, w).
Definition lift {A} (o : outcome A) : M A := fun w => (o, w).

Definition bind {A B} (c : M A) (k : A -> M B) : M B := fun w =>
  match c w with
  | (Return a, w') => k a w'
  | (Throw e, w') => (Throw e, w')
  end.

(** [try { c } catch { h }]. *)
Definition try_catch {A} (c : M A) (h : exn -> M A) : M A := fun w =>
  match c w with
  | (Return a, w') => (Return a, w')
  | (Throw e, w') => h e w'
  end.

Notation "x <- c ;; k" := (bind c (fun x => k))
  (at level 100, c at next level, right associativity).
Notation "c ;;; k" := (bind c (fun _ => k))
  (at level 100, right associativity).

(** The request body: none, a JSON value, or a FormData with the parts the
    update route reads.  The [resumeId] and [resumeData] parts are strings,
    the latter given as [JSON.parse] sees it; the [image] part is a string
    or a file, and the file is given by what reading it yields, its data
    URL or a failure. *)
Inductive image_part :=
| ImageText (s : string)
| ImageFile (read : option string).

Record form_data := {
  fd_resumeId : option string;
  fd_resumeData : option text;
  fd_image : option image_part
}.

Inductive body :=
| NoBody
| JsonBody (v : value)
| FormBody (fd : form_data).

(** [body?.k]. *)
Definition body_prop (b : body) (k : string) : option value :=
  match b with
  | JsonBody v => own_props v !! k
  | NoBody | FormBody _ => None
  end.

(** [v.k]: a TypeError on null. *)
Definition get_prop (v : value) (k : string) : outcome (option value) :=
  match v with
  | VNull => Throw TypeError
  | _ => Return (own_props v !! k)
  end.

(** ** Array methods with a callback that can throw *)

Section ArrayMethods.
Context (p : value -> outcome bool).

Fixpoint js_find (l : list value) : outcome (option value) :=
  match l with
  | [] => Return None
  | x :: r => b ← p x; if b : bool then Return (Some x) else js_find r
  end.

Fixpoint js_findIndex (i : nat) (l : list value) : outcome (option nat) :=
  match l with
  | [] => Return None
  | x :: r => b ← p x; if b : bool then Return (Some i) else js_findIndex (S i) r
  end.

Fixpoint js_filter (l : list value) : outcome (list value) :=
  match l with
  | [] => Return []
  | x :: r =>
      b ← p x; r' ← js_filter r;
      Return (if b : bool then x :: r' else r')
  end.
End ArrayMethods.

(** [a.find], [a.findIndex], [a.filter]: the receiver has the method only
    when it is an array. *)
Definition array_find (p : value -> outcome bool) (a : value) : outcome (option value) :=
  match a with VArr l => js_find p l | _ => Throw TypeError end.

Definition array_findIndex (p : value -> outcome bool) (a : value) : outcome (option nat) :=
  match a with VArr l => js_findIndex p 0 l | _ => Throw TypeError end.

Definition array_filter (p : value -> outcome bool) (a : value) : outcome value :=
  match a with VArr l => VArr <$> js_filter p l | _ => Throw TypeError end.

(** [a.slice().sort(cmp)].  The sort of ECMAScript is stable; with a
    comparator that orders the elements consistently its result does not
    depend on the algorithm, given here as an insertion sort.  The
    comparator answers a number or NaN ([None]), and NaN counts as zero. *)
Section Sort.
Context (cmp : value -> value -> outcome (option Z)).

Definition goes_after (c : option Z) : bool :=
  match c with Some d => 0 <? d | None => false end.

Fixpoint sort_insert (x : value) (l : list value) : outcome (list value) :=
  match l with
  | [] => Return [x]
  | y :: r =>
      c ← cmp x y;
      if goes_after c then (y ::.) <$> sort_insert x r
      else Return (x :: y :: r)
  end.

Fixpoint js_sort (l : list value) : outcome (list value) :=
  match l with
  | [] => Return []
  | x :: r => r' ← js_sort r; sort_insert x r'
  end.
End Sort.

Definition array_sort (cmp : value -> value -> outcome (option Z)) (a : value) : outcome value :=
  match a with VArr l => VArr <$> js_sort cmp l | _ => Throw TypeError end.

(** ** The shim *)

Module LS_KEYS.
Definition user : string := "arb_user".
Definition token : string := "arb_token".
Definition resumes : string := "arb_resumes".
End LS_KEYS.

Definition getItem (key : string) : M (option text) :=
  fun w => (Return (ls w !! key), w).

Definition setItem (key : string) (t : text) : M unit :=
  fun w => (Return (), set_ls (insert key t) w).

Section Shim.

(** The n-th reading of the clock, in milliseconds since the epoch, and the
    base-36 digits of the n-th number of the random generator. *)
Variable clock : nat -> Z.
Variable random : nat -> list nat.

Definition Date_now : M Z :=
  fun w => (Return (clock (tick w)), {| ls := ls w; tick := S (tick w) |}).

Definition Math_random : M (list nat) :=
  fun w => (Return (random (tick w)), {| ls := ls w; tick := S (tick w) |}).

Definition nowIso : M string :=
  t <- Date_now ;; ret (Platform.toISOString t).

Definition makeId (prefix : string) : M string :=
  t <- Date_now ;;
  r <- Math_random ;;
  ret (prefix +:+ "_" +:+ Platform.toString36 t +:+ "_" +:+ Platform.fraction36 r).

Definition readJson (key : string) (fallback : value) : M value :=
  try_catch
    (raw <- getItem key ;;
     if negb (text_truthy raw) then ret fallback
     else match raw with
          | Some t => lift (JSON_parse t)
          | None => ret fallback
          end)
    (fun _ => ret fallback).

Definition writeJson (key : string) (v : value) : M unit :=
  setItem key (JSON_stringify v).

Definition default_user : value :=
  obj [("_id", VStr "local_user"); ("name", VStr "Joe Doe");
       ("email", VStr "joe@example.com")].

Definition ensureSeed : M unit :=
  existingUser <- readJson LS_KEYS.user VNull ;;
  (if negb (truthy existingUser) then writeJson LS_KEYS.user default_user
   else ret ()) ;;;
  existingToken <- getItem LS_KEYS.token ;;
  (if negb (text_truthy existingToken)
   then setItem LS_KEYS.token (Raw "local_token")
   else ret ()) ;;;
  existingResumes <- readJson LS_KEYS.resumes VNull ;;
  if negb (truthy existingResumes) then writeJson LS_KEYS.resumes (VArr [])
  else ret ().

Definition axiosLikeError (message : string) (status : option Z) : axios_error :=
  let status := default 400 status in
  {| message := message;
     response := {| status := status; data := {| data_message := message |} |} |}.

Definition getResumes : M value :=
  ensureSeed ;;; readJson LS_KEYS.resumes (VArr []).

Definition setResumes (resumes : value) : M unit :=
  writeJson LS_KEYS.resumes resumes.

(** The callback [(r) => r._id === id]. *)
Definition has_id (id : option value) (r : value) : outcome bool :=
  rid ← get_prop r "_id"; Return (strict_eq rid id).

Definition findResume (resumeId : option value) : M value :=
  resumes <- getResumes ;;
  found <- lift (array_find (has_id resumeId) resumes) ;;
  ret (or_else found VNull).

Definition upsertResume (updated : props) : M unit :=
  resumes <- getResumes ;;
  idx <- lift (array_findIndex (has_id (updated !! "_id")) resumes) ;;
  match resumes with
  | VArr l =>
      match idx with
      | Some i => setResumes (VArr (<[i := VObj updated]> l))
      | None => setResumes (VArr (l ++ [VObj updated]))
      end
  | _ => throw TypeError
  end.

Definition normalizeUrl (url : option string) : string :=
  match url with
  | None => "/"
  | Some u =>
      if String.eqb u "" then "/"
      else if Str.startsWith "/" u then u else "/" +:+ u
  end.

Definition boilerplate : string :=
  "Results-driven professional with a strong focus on impact. ".

Definition enhanceText (prompt : option value) : outcome string :=
  match prompt with
  | None | Some VNull => Return ""
  | Some (VStr s) =>
      let base := Str.trim (default s (Str.match_quoted s)) in
      if String.eqb base "" then Return ""
      else
        let cleaned := Str.trim (Str.collapse_ws base) in
        if (String.length cleaned <? 80)%nat
        then Return (boilerplate +:+ cleaned)
        else Return cleaned
  | Some _ => Throw TypeError
  end.

(** The resume the create and upload routes store. *)
Definition new_resume (id title summary createdAt updatedAt : string) : props :=
  list_to_map
    [("_id", VStr id); ("title", VStr title); ("personal_info", VObj ∅);
     ("professional_summary", VStr summary); ("experience", VArr []);
     ("education", VArr []); ("project", VArr []); ("skills", VArr []);
     ("template", VStr "classic"); ("accent_color", VStr "#3B82F6");
     ("public", VBool false); ("createdAt", VStr createdAt);
     ("updatedAt", VStr updatedAt)].

(** The comparator of the list route:
    [new Date(b.updatedAt).getTime() - new Date(a.updatedAt).getTime()]. *)
Definition by_updatedAt_desc (a b : value) : outcome (option Z) :=
  ub ← get_prop b "updatedAt";
  ua ← get_prop a "updatedAt";
  Return (tb ← Platform.date_time ub; ta ← Platform.date_time ua; Some (tb - ta)).

(** [x?.trim()]. *)
Definition opt_trim (x : option value) : outcome (option value) :=
  match x with
  | None | Some VNull => Return None
  | Some (VStr s) => Return (Some (VStr (Str.trim s)))
  | Some _ => Throw TypeError
  end.

Definition decode_param (s : string) : M string :=
  match Platform.decodeURIComponent s with
  | Some id => ret id
  | None => throw URIError
  end.

(** What the update route takes from its body, a plain object
    [{resumeId, resumeData}] or a FormData with the parts [resumeId],
    [resumeData] (a JSON text) and [image]: the id, the data and the image
    file, the latter given by what reading it yields. *)
Definition update_args (body : body)
  : outcome (option value * value * option (option string)) :=
  match body with
  | FormBody fd =>
      let resumeId := VStr <$> fd_resumeId fd in
      let resumeDataRaw := fd_resumeData fd in
      resumeData ←
        (if text_truthy resumeDataRaw
         then match resumeDataRaw with
              | Some t => JSON_parse t
              | None => Return (VObj ∅)
              end
         else Return (VObj ∅));
      let imageFile :=
        match fd_image fd with
        | Some (ImageFile read) => Some read
        | _ => None
        end in
      Return (resumeId, resumeData, imageFile)
  | _ =>
      Return (body_prop body "resumeId",
              or_else (body_prop body "resumeData") (VObj ∅), None)
  end.

(** The handlers of the routes, in the order of [handleRequest]. *)

Definition users_data_route : M value :=
  user <- readJson LS_KEYS.user VNull ;;
  ret (obj [("user", user)]).

Definition users_resumes_route : M value :=
  all <- getResumes ;;
  resumes <- lift (array_sort by_updatedAt_desc all) ;;
  ret (obj [("resumes", resumes)]).

Definition login_route (path : string) (body : body) : M value :=
  let token := "local_token" in
  name <- lift (opt_trim (body_prop body "name")) ;;
  email <- lift (opt_trim (body_prop body "email")) ;;
  let user :=
    obj [("_id", VStr "local_user"); ("name", or_else name (VStr "Joe Doe"));
         ("email", or_else email (VStr "joe@example.com"))] in
  writeJson LS_KEYS.user user ;;;
  setItem LS_KEYS.token (Raw token) ;;;
  ret (obj [("token", VStr token); ("user", user);
            ("message", VStr (if Str.endsWith "register" path
                              then "Registered (local)"
                              else "Logged in (local)"))]).

Definition create_route (body : body) : M value :=
  let title := to_string (or_else (body_prop body "title") (VStr "Untitled Resume")) in
  id <- makeId "resume" ;;
  createdAt <- nowIso ;;
  updatedAt <- nowIso ;;
  let resume := new_resume id title "" createdAt updatedAt in
  upsertResume resume ;;;
  ret (obj [("resume", VObj resume); ("message", VStr "Resume created")]).

Definition get_route (param : string) : M value :=
  resumeId <- decode_param param ;;
  resume <- findResume (Some (VStr resumeId)) ;;
  if negb (truthy resume)
  then throw (Rejected (axiosLikeError "Resume not found" (Some 404)))
  else ret (obj [("resume", resume)]).

Definition public_route (param : string) : M value :=
  resumeId <- decode_param param ;;
  resume <- findResume (Some (VStr resumeId)) ;;
  if negb (truthy resume) || negb (truthy_opt (own_props resume !! "public"))
  then throw (Rejected (axiosLikeError "Resume not found" (Some 404)))
  else ret (obj [("resume", resume)]).

(** The resume the update route builds:
    [{...existing, ...resumeData, personal_info: {...}, updatedAt}], then
    the image when one was read. *)
Definition merged (existing resumeData : value) (old_info new_info : option value)
    (now : string) : props :=
  <["updatedAt" := VStr now]>
    (<["personal_info" :=
         VObj (spread2 (or_else old_info (VObj ∅)) (or_else new_info (VObj ∅)))]>
       (spread2 existing resumeData)).

Definition with_image (imageFile : option (option string)) (next : props) : props :=
  match imageFile with
  | Some (Some dataUrl) =>
      <["personal_info" :=
          VObj (<["image" := VStr dataUrl]>
                  (own_props (or_else (next !! "personal_info") (VObj ∅))))]>
        next
  | _ => next
  end.

Definition update_route (body : body) : M value :=
  args <- lift (update_args body) ;;
  let '(resumeId, resumeData, imageFile) := args in
  if negb (truthy_opt resumeId)
  then throw (Rejected (axiosLikeError "resumeId is required" (Some 400)))
  else
  existing <- findResume resumeId ;;
  if negb (truthy existing)
  then throw (Rejected (axiosLikeError "Resume not found" (Some 404)))
  else
  old_info <- lift (get_prop existing "personal_info") ;;
  new_info <- lift (get_prop resumeData "personal_info") ;;
  now <- nowIso ;;
  let next := merged existing resumeData old_info new_info now in
  let next := with_image imageFile next in
  upsertResume next ;;;
  ret (obj [("resume", VObj next); ("message", VStr "Resume updated")]).

Definition delete_route (param : string) : M value :=
  resumeId <- decode_param param ;;
  resumes <- getResumes ;;
  next <- lift (array_filter
                  (fun r => negb <$> has_id (Some (VStr resumeId)) r) resumes) ;;
  setResumes next ;;;
  ret (obj [("message", VStr "Resume deleted")]).

Definition enhance_route (body : body) : M value :=
  enhanced <- lift (enhanceText (body_prop body "userContent")) ;;
  ret (obj [("enhancedContent", VStr enhanced)]).

Definition upload_route (body : body) : M value :=
  let title := to_string (or_else (body_prop body "title") (VStr "Uploaded Resume")) in
  let resumeText := to_string (or_else (body_prop body "resumeText") (VStr "")) in
  id <- makeId "resume" ;;
  createdAt <- nowIso ;;
  updatedAt <- nowIso ;;
  let resume :=
    new_resume id title (Str.take 600 (Str.trim resumeText)) createdAt updatedAt in
  upsertResume resume ;;;
  ret (obj [("resumeId", VStr id); ("message", VStr "Resume uploaded")]).

Definition handleRequest (method : string) (url : option string) (body : body) : M value :=
  ensureSeed ;;;
  let path := normalizeUrl url in
  if String.eqb method "GET" && String.eqb path "/api/users/data" then
    users_data_route
  else if String.eqb method "GET" && String.eqb path "/api/users/resumes" then
    users_resumes_route
  else if String.eqb method "POST"
          && (String.eqb path "/api/users/login"
              || String.eqb path "/api/users/register") then
    login_route path body
  else if String.eqb method "POST" && String.eqb path "/api/resumes/create" then
    create_route body
  else
  let getMatch := Str.match_param "/api/resumes/get/" path in
  if String.eqb method "GET" && bool_decide (is_Some getMatch) then
    get_route (default "" getMatch)
  else
  let publicMatch := Str.match_param "/api/resumes/public/" path in
  if String.eqb method "GET" && bool_decide (is_Some publicMatch) then
    public_route (default "" publicMatch)
  else if String.eqb method "PUT" && String.eqb path "/api/resumes/update" then
    update_route body
  else
  let deleteMatch := Str.match_param "/api/resumes/delete/" path in
  if String.eqb method "DELETE" && bool_decide (is_Some deleteMatch) then
    delete_route (default "" deleteMatch)
  else if String.eqb method "POST" && String.eqb path "/api/ai/enhance-pro-sum" then
    enhance_route body
  else if String.eqb method "POST" && String.eqb path "/api/ai/enhance-job-desc" then
    enhance_route body
  else if String.eqb method "POST" && String.eqb path "/api/ai/upload-resume" then
    upload_route body
  else
    throw (Rejected (axiosLikeError
                       ("No local route for " +:+ method +:+ " " +:+ path)
                       (Some 404))).

(** The four entry points wrap the answer as [{data}] and rethrow. *)
Definition wrap_data (c : M value) : M value :=
  try_catch (data <- c ;; ret (obj [("data", data)])) (fun err => throw err).

Definition api_get (url : option string) : M value :=
  wrap_data (handleRequest "GET" url NoBody).
Definition api_post (url : option string) (b : body) : M value :=
  wrap_data (handleRequest "POST" url b).
Definition api_put (url : option string) (b : body) : M value :=
  wrap_data (handleRequest "PUT" url b).
Definition api_delete (url : option string) : M value :=
  wrap_data (handleRequest "DELETE" url NoBody).

End Shim.

(** ** What the storage holds, as the specification speaks of it *)

(** The value a slot holds for the shim: the value of its JSON text, when
    that value is truthy. *)
Definition stored (s : gmap string text) (key : string) : option value :=
  match s !! key with
  | Some (Json v) => if truthy v then Some v else None
  | _ => None
  end.

(** The seed step on the storage: each of the three slots that holds
    nothing usable gets its default. *)
Definition seed_user (s : gmap string text) : gmap string text :=
  match stored s LS_KEYS.user with
  | Some _ => s
  | None => <[LS_KEYS.user := Json default_user]> s
  end.

Definition seed_token (s : gmap string text) : gmap string text :=
  if text_truthy (s !! LS_KEYS.token) then s
  else <[LS_KEYS.token := Raw "local_token"]> s.

Definition seed_resumes (s : gmap string text) : gmap string text :=
  match stored s LS_KEYS.resumes with
  | Some _ => s
  | None => <[LS_KEYS.resumes := Json (VArr [])]> s
  end.

Definition seed (s : gmap string text) : gmap string text :=
  seed_resumes (seed_token (seed_user s)).

(** The resume collection of a storage, as the repository reads it after
    seeding. *)
Definition collection (s : gmap string text) : value :=
  default (VArr []) (stored (seed s) LS_KEYS.resumes).

(** What [readJson] answers. *)
Definition read_value (s : gmap string text) (key : string) (fallback : value) : value :=
  match s !! key with
  | Some (Json v) => v
  | _ => fallback
  end.

(** ** The collection as a list of resumes *)

Definition id_of (r : value) : option value := own_props r !! "_id".

Definition is_null (v : value) : bool :=
  match v with VNull => true | _ => false end.

(** No entry of the collection is null. *)
Definition no_null (l : list value) : bool := forallb (fun r => negb (is_null r)) l.

(** The first resume of the list with the given id. *)
Definition find_resume (id : option value) (l : list value) : option value :=
  List.find (fun r => strict_eq (id_of r) id) l.

Fixpoint find_index (id : option value) (l : list value) : option nat :=
  match l with
  | [] => None
  | r :: l' => if strict_eq (id_of r) id then Some O else S <$> find_index id l'
  end.

(** The list after [upsertResume]: the resume takes the place of the first
    one with its id, or goes to the end. *)
Definition upsert (u : props) (l : list value) : list value :=
  match find_index (u !! "_id") l with
  | Some i => <[i := VObj u]> l
  | None => l ++ [VObj u]
  end.

(** ** The route table *)

(** A path pattern: a literal path, or a literal prefix followed by one
    parameter. *)
Inductive pattern :=
| Exact (path : string)
| Param (prefix : string).

Definition route_table : list (string * pattern) :=
  [("GET", Exact "/api/users/data");
   ("GET", Exact "/api/users/resumes");
   ("POST", Exact "/api/users/login");
   ("POST", Exact "/api/users/register");
   ("POST", Exact "/api/resumes/create");
   ("GET", Param "/api/resumes/get/");
   ("GET", Param "/api/resumes/public/");
   ("PUT", Exact "/api/resumes/update");
   ("DELETE", Param "/api/resumes/delete/");
   ("POST", Exact "/api/ai/enhance-pro-sum");
   ("POST", Exact "/api/ai/enhance-job-desc");
   ("POST", Exact "/api/ai/upload-resume")].

Definition pattern_matches (p : pattern) (path : string) : bool :=
  match p with
  | Exact q => String.eqb path q
  | Param prefix => bool_decide (is_Some (Str.match_param prefix path))
  end.

Definition route_matches (method path : string) (r : string * pattern) : bool :=
  String.eqb method r.1 && pattern_matches r.2 path.

(** Whether some route of the table takes the request. *)
Definition routed (method path : string) : bool :=
  List.existsb (route_matches method path) route_table.

(** ** What the claims speak of *)

(** The world the seed step leaves. *)
Definition run_seed (w : world) : world := (ensureSeed w).2.

(** The error of a request that no route takes. *)
Definition not_found (method path : string) : axios_error :=
  let m := "No local route for " +:+ method +:+ " " +:+ path in
  {| message := m; response := {| status := 404; data := {| data_message := m |} |} |}.

(** A multipart body of the update route whose [resumeData] part is a text
    that is not empty and that [JSON.parse] refuses. *)
Definition unreadable (b : body) : Prop :=
  exists fd s, b = FormBody fd /\ fd_resumeData fd = Some (Raw s) /\ s <> "".

(** The time value of the [updatedAt] of a resume. *)
Definition updated_time (r : value) : option Z :=
  Platform.date_time (own_props r !! "updatedAt").

(** The sort key of a resume that has a time value. *)
Definition recency (r : value) : Z := default 0 (updated_time r).

(** Every entry is an object or the like, with a time value. *)
Definition timed (l : list value) : bool :=
  forallb (fun r => negb (is_null r) && bool_decide (is_Some (updated_time r))) l.

(** Newer first. *)
Definition newer_first (a b : value) : Prop := recency b <= recency a.


(** Insertion sort by recency, newest first, an entry going before those
    that are not newer. *)
Fixpoint insert_desc (x : value) (l : list value) : list value :=
  match l with
  | [] => [x]
  | y :: r => if recency x <? recency y then y :: insert_desc x r else x :: y :: r
  end.

Definition sort_desc (l : list value) : list value := foldr insert_desc [] l.

(** A character that ends a path parameter early or starts an escape. *)
Definition special (c : ascii) : bool :=
  Ascii.eqb c Str.percent || Str.is_line_terminator c.

(** A string without such a character. *)
Definition plain (s : string) : bool := negb (Str.existsb special s).

(** ** The enhancement stub, as the specification words it *)

(** A double quote, as a string. *)
Definition q : string := String Str.dquote "".

Fixpoint count_quotes (s : string) : nat :=
  match s with
  | "" => O
  | String c r => (if Ascii.eqb c Str.dquote then 1 else 0) + count_quotes r
  end.

(** The first double-quoted substring: the text between the first double
    quote and the next one. *)
Definition first_quoted (s : string) : option string :=
  Str.after_first_quote s ≫= Str.before_first_quote.

(** The words of a text: its maximal runs of characters that are not white
    space, in their order.  A character that is not white space goes in
    front of the word the rest starts with, or is a word of its own when
    the rest starts with white space or is empty. *)
Fixpoint words (s : string) : list string :=
  match s with
  | "" => []
  | String c r =>
      if Str.is_ws c then words r
      else if Str.starts_nonws r
           then match words r with
                | w :: ws => String c w :: ws
                | [] => [String c ""]
                end
           else String c "" :: words r
  end.

(** The words one after the other, a single space between two. *)
Fixpoint unwords (l : list string) : string :=
  match l with
  | [] => ""
  | [w] => w
  | w :: r => w +:+ " " +:+ unwords r
  end.

(** A text with its white space collapsed: no white space at its ends, and
    one space for every run of white space between two words. *)
Definition single_spaced (x : string) : string := unwords (words x).

(** What the stub makes of the text it picked: white space collapsed, and
    the boilerplate sentence in front of a result that is not empty and
    shorter than 80 characters. *)
Definition finish (x : string) : string :=
  let cleaned := single_spaced x in
  if negb (String.eqb cleaned "") && (String.length cleaned <? 80)%nat
  then boilerplate +:+ cleaned
  else cleaned.

(** A prompt with white space of several kinds: spaces at both ends, a tab
    and a line feed, a run of spaces, a no-break space. *)
Definition spaced_prompt : string :=
  "  led" +:+ String "009"%char (String "010"%char "a   team ")
  +:+ String "160"%char " of 5 ".

(** A prompt of four words that is 80 characters long once its white space
    is collapsed. *)
Definition long_prompt : string :=
  "aaaaaaaaaaaaaaaaaaaaaaaaa   bbbbbbbbbbbbbbbbbbbbbbbbb"
  +:+ String "009"%char "ccccccccccccccccccccccccc  dd ".

(** The stub as the claim has it. *)
Definition enhance_as_stated (prompt : string) : string :=
  finish (default prompt (first_quoted prompt)).

(** ** Requests *)

Section Requests.
Variable clock : nat -> Z.
Variable random : nat -> list nat.

(** The id [makeId] gives at the position [n] of the clock and the random
    generator. *)
Definition id_at (prefix : string) (n : nat) : string :=
  prefix +:+ "_" +:+ Platform.toString36 (clock n) +:+ "_"
  +:+ Platform.fraction36 (random (S n)).

Definition post_create (b : body) (w : world) : outcome value * world :=
  handleRequest clock random "POST" (Some "/api/resumes/create") b w.

Definition get_resume (id : string) (w : world) : outcome value * world :=
  handleRequest clock random "GET" (Some ("/api/resumes/get/" +:+ id)) NoBody w.

Definition put_update (b : body) (w : world) : outcome value * world :=
  handleRequest clock random "PUT" (Some "/api/resumes/update") b w.

Definition get_resumes (w : world) : outcome value * world :=
  handleRequest clock random "GET" (Some "/api/users/resumes") NoBody w.

End Requests.

(** ** Sample inputs *)

(** A clock that advances by a millisecond at each reading, and one that
    stands still. *)
Definition ticking_clock (n : nat) : Z := 1700000000000 + Z.of_nat n.
Definition frozen_clock (n : nat) : Z := 1700000000000.

Definition sample_random (n : nat) : list nat := [10; 11; 12; n; 2; 3; 35; 0; 7]%nat.

(** An empty localStorage. *)
Definition fresh : world := {| ls := ∅; tick := 0 |}.

(** A storage that holds one resume. *)
Definition sample_resume : value :=
  obj [("_id", VStr "r1"); ("title", VStr "Old title");
       ("personal_info", obj [("city", VStr "X")]); ("public", VBool false);
       ("createdAt", VStr "2023-11-14T22:13:19.000Z");
       ("updatedAt", VStr "2023-11-14T22:13:19.000Z")].

Definition sample_world : world :=
  {| ls := {[ LS_KEYS.resumes := Json (VArr [sample_resume]) ]}; tick := 0 |}.

(** A storage that holds two resumes. *)
Definition second_resume : value :=
  obj [("_id", VStr "r2"); ("title", VStr "Other title");
       ("personal_info", VObj ∅); ("public", VBool true);
       ("createdAt", VStr "2023-11-14T22:13:19.500Z");
       ("updatedAt", VStr "2023-11-14T22:13:19.500Z")].

Definition two_resumes : world :=
  {| ls := {[ LS_KEYS.resumes := Json (VArr [sample_resume; second_resume]) ]};
     tick := 0 |}.




(** The resume of an answer [{resume, ...}], and a field of it. *)
Definition answer_resume (o : outcome value) : option value :=
  match o with
  | Return v => own_props v !! "resume"
  | Throw _ => None
  end.

Definition answer_field (o : outcome value) (k : string) : option value :=
  r ← answer_resume o; own_props r !! k.

(** The bodies of the update requests used below. *)
Definition update_body (id : value) (data : value) : body :=
  JsonBody (obj [("resumeId", id); ("resumeData", data)]).

Definition country_data : value := obj [("personal_info", obj [("country", VStr "Y")])].



Definition entries (v : value) : list value :=
  match v with VArr l => l | _ => [] end.

(** ** The auth slice (client/src/app/features/authSlice.js) *)

Module AuthSlice.

(** The state of the slice.  The token is a string, given as the storage
    holds it. *)
Record state := { token : text; user : value; loading : value }.





Definition setLoading (st : state) (payload : value) : state :=
  {| token := token st; user := user st; loading := payload |}.


End AuthSlice.

(** ** What the further properties speak of *)

(** A storage on which the seed step has nothing to do. *)
Definition seeded (s : gmap string text) : Prop := seed s = s.

(** A computation that leaves a seeded storage seeded, whatever it answers;
    and one that leaves a world with a seeded storage as it is. *)
Definition keeps_seeded {A} (c : M A) : Prop :=
  forall w, seeded (ls w) -> seeded (ls (c w).2).

Definition silent {A} (c : M A) : Prop :=
  forall w, seeded (ls w) -> (c w).2 = w.

(** A path parameter the routes take: not empty, on one line. *)
Definition one_line (s : string) : bool :=
  negb (String.eqb s "") && negb (Str.existsb Str.is_line_terminator s).

(** The resumes of a list whose id is not [id], in their order. *)
Definition without (id : string) (l : list value) : list value :=
  List.filter (fun r => negb (strict_eq (id_of r) (Some (VStr id)))) l.

(** The error of the routes that look a resume up. *)
Definition resume_not_found : exn :=
  Rejected (axiosLikeError "Resume not found" (Some 404)).

(** What [x?.trim() || d] gives for a field [x] of the body that is a
    string or is missing: the trimmed string, or [d] when nothing is
    left. *)
Definition trimmed_or (x : option value) (d : string) : string :=
  match x with
  | Some (VStr s) => if String.eqb (Str.trim s) "" then d else Str.trim s
  | _ => d
  end.

(** A field of the body that [x?.trim()] accepts: missing, null or a
    string. *)
Definition trimmable (x : option value) : bool :=
  match x with
  | None | Some VNull | Some (VStr _) => true
  | Some _ => false
  end.

(** The user the login routes make of a body. *)
Definition login_user (b : body) : value :=
  obj [("_id", VStr "local_user");
       ("name", VStr (trimmed_or (body_prop b "name") "Joe Doe"));
       ("email", VStr (trimmed_or (body_prop b "email") "joe@example.com"))].

Definition login_path (path : string) : bool :=
  String.eqb path "/api/users/login" || String.eqb path "/api/users/register".


(** A storage whose collection is a list of entries that are not null and
    have an [updatedAt] with a time value. *)
Definition dated (s : gmap string text) : Prop :=
  exists l, collection s = VArr l /\ timed l = true.

(** A computation that keeps a seeded storage seeded and dated. *)
Definition keeps_dated {A} (c : M A) : Prop :=
  forall w, seeded (ls w) -> dated (ls w) ->
            seeded (ls (c w).2) /\ dated (ls (c w).2).

(** A request: its method, its url and its body; and a run of requests,
    one after the other, whatever they answer. *)
Definition request : Type := string * option string * body.

Definition run_requests (clock : nat -> Z) (random : nat -> list nat)
    (rs : list request) (w : world) : world :=
  foldl (fun w r => (handleRequest clock random r.1.1 r.1.2 r.2 w).2) w rs.

(** A clock whose readings [toISOString] writes with a four-digit year. *)
Definition iso_clock (clock : nat -> Z) : Prop :=
  forall n, Platform.min_iso_time <= clock n <= Platform.max_iso_time.

(** A string that [toISOString] wrote of a reading of the clock. *)
Definition iso_reading (clock : nat -> Z) (s : string) : Prop :=
  exists n, s = Platform.toISOString (clock n).

(** What an entry point makes of the answer of the router. *)
Definition wrapped (r : outcome value * world) : outcome value * world :=
  match r with
  | (Return v, w') => (Return (obj [("data", v)]), w')
  | (Throw e, w') => (Throw e, w')
  end.

(** ** Further sample inputs *)



(** A run of requests: two creations, an update of a resume that is not
    there, an upload, a deletion, a login. *)
Definition sample_requests : list request :=
  [("POST", Some "/api/resumes/create", JsonBody (obj [("title", VStr "First")]));
   ("POST", Some "/api/resumes/create", NoBody);
   ("PUT", Some "/api/resumes/update", update_body (VStr "r9") country_data);
   ("POST", Some "/api/ai/upload-resume",
    JsonBody (obj [("resumeText", VStr "  Ten years of plumbing.  ")]));
   ("DELETE", Some "/api/resumes/delete/r9", NoBody);
   ("POST", Some "/api/users/login", JsonBody (obj [("name", VStr " Ann ")]))].

Definition ann_body : body :=
  JsonBody (obj [("name", VStr "  Ann Lee "); ("email", VStr "   ")]).



(** ** Dates: what [toISOString] writes, [Date.parse] reads back *)

Lemma all_from_spec n i f :
  all_from n i f = true -> forall j, i <= j < i + Z.of_nat n -> f j = true.
Proof.
  revert i. induction n as [|n IH]; intros i H j Hj; [lia|].
  cbn in H. apply andb_true_iff in H as [H1 H2].
  destruct (decide (j = i)) as [->|Hne]; [done|].
  apply (IH (i + 1)); [done|lia].
Qed.

Lemma append_cons c s r : String c s +:+ r = String c (s +:+ r).
Proof. reflexivity. Qed.

Lemma append_nil r : "" +:+ r = r.
Proof. reflexivity. Qed.

Module DateFacts.
Import Platform.

Lemma char_digit_char d : 0 <= d <= 9 -> char_digit (digit_char d) = Some d.
Proof.
  intros Hd.
  assert (H : all_from 10 0 (fun d => bool_decide (char_digit (digit_char d) = Some d)) = true)
    by (vm_compute; reflexivity).
  eapply bool_decide_eq_true_1, (all_from_spec 10 0 _ H). lia.
Qed.

Lemma read_digits_digits w n acc rest :
  0 <= n ->
  read_digits w acc (digits w n +:+ rest)
  = Some (acc * 10 ^ Z.of_nat w + n mod 10 ^ Z.of_nat w, rest).
Proof.
  intros Hn. revert acc. induction w as [|w IH]; intros acc.
  - cbn. f_equal. f_equal. rewrite Z.mod_1_r. lia.
  - cbn [digits]. rewrite append_cons. cbn [read_digits].
    rewrite char_digit_char
      by (pose proof (Z.mod_pos_bound (n / 10 ^ Z.of_nat w) 10); lia).
    cbn [mbind option_bind]. rewrite IH. f_equal. f_equal.
    rewrite Nat2Z.inj_succ, Z.pow_succ_r by lia.
    rewrite (Z.mul_comm 10 (10 ^ Z.of_nat w)).
    rewrite (Z.rem_mul_r n (10 ^ Z.of_nat w) 10) by lia. lia.
Qed.

(** The year of the era and the day of that year, for a day of the era. *)
Lemma era_year doe :
  0 <= doe < 146097 ->
  let yoe := (doe - doe / 1460 + doe / 36524 - doe / 146096) / 365 in
  let doy := doe - (365 * yoe + yoe / 4 - yoe / 100) in
  0 <= yoe <= 399 /\ 0 <= doy <= 365
  /\ (doy = 365 -> (yoe + 1) mod 4 = 0
                   /\ ((yoe + 1) mod 100 <> 0 \/ (yoe + 1) mod 400 = 0))
  /\ (146037 <= doe -> yoe = 399 /\ 306 <= doy)
  /\ (doe <= 146036 -> yoe <= 398 \/ doy <= 305).
Proof.
  intros H yoe doy. subst yoe doy.
  Z.div_mod_to_equations; lia.
Qed.

(** The month and the day of the month, for a day of a year that starts in
    March. *)
Lemma year_day doy :
  0 <= doy <= 365 ->
  let mp := (5 * doy + 2) / 153 in
  let d := doy - (153 * mp + 2) / 5 + 1 in
  0 <= mp <= 11
  /\ 1 <= d <= 31
  /\ (mp = 11 -> d <= 29 /\ (d = 29 -> doy = 365))
  /\ (mp = 1 \/ mp = 3 \/ mp = 6 \/ mp = 8 -> d <= 30)
  /\ (mp <= 9 <-> doy <= 305).
Proof.
  intros H mp d. subst mp d.
  Z.div_mod_to_equations; lia.
Qed.

Ltac split_bools :=
  repeat match goal with
    | |- context [?a <? ?b] => destruct (Z.ltb_spec a b)
    | |- context [?a <=? ?b] => destruct (Z.leb_spec a b)
    | |- context [?a =? ?b] => destruct (Z.eqb_spec a b)
    end; cbn [andb orb negb].

Lemma civil_roundtrip z :
  min_day <= z <= max_day ->
  exists y m d,
    civil_from_days z = (y, m, d)
    /\ 0 <= y <= 9999 /\ 1 <= m <= 12 /\ 1 <= d <= days_in_month y m
    /\ days_from_civil y m d = z.
Proof.
  unfold min_day, max_day. intros Hz.
  unfold civil_from_days. cbn zeta.
  pose proof (Z.mod_pos_bound (z + 719468) 146097 eq_refl) as Hdoe.
  pose proof (Z.div_mod (z + 719468) 146097 ltac:(lia)) as Hdm.
  set (doe := (z + 719468) mod 146097) in *.
  set (era := (z + 719468) / 146097) in *.
  destruct (era_year doe Hdoe) as (Hyoe & Hdoy & Hleap & Hhi & Hlo).
  set (yoe := (doe - doe / 1460 + doe / 36524 - doe / 146096) / 365) in *.
  set (doy := doe - (365 * yoe + yoe / 4 - yoe / 100)) in *.
  destruct (year_day doy Hdoy) as (Hmp & Hd & Hfeb & H30 & Hmar).
  set (mp := (5 * doy + 2) / 153) in *.
  set (d := doy - (153 * mp + 2) / 5 + 1) in *.
  assert (Hera : -1 <= era <= 24) by lia.
  eexists _, _, _. split; [reflexivity|].
  assert (Hdoy' : (153 * mp + 2) / 5 + d - 1 = doy) by (unfold d; lia).
  assert (Hdoe' : yoe * 365 + yoe / 4 - yoe / 100 + doy = doe) by (unfold doy; lia).
  clearbody d mp doy yoe doe era.
  destruct (Z.ltb_spec mp 10) as [Hlt|Hge].
  - replace (mp + 3 <=? 2) with false by lia.
    split; [lia|]. split; [lia|]. split.
    + unfold days_in_month. split_bools; lia.
    + unfold days_from_civil.
      replace (mp + 3 <=? 2) with false by lia.
      replace (2 <? mp + 3) with true by lia.
      replace (mp + 3 - 3) with mp by lia.
      replace ((yoe + era * 400) / 400) with era by (Z.div_mod_to_equations; lia).
      replace ((yoe + era * 400) mod 400) with yoe by (Z.div_mod_to_equations; lia).
      lia.
  - replace (mp - 9 <=? 2) with true by lia.
    split; [lia|]. split; [lia|]. split.
    + unfold days_in_month, is_leap.
      assert (mp = 10 \/ mp = 11) as [Hm|Hm] by lia; subst mp.
      * change (10 - 9) with 1. cbn. lia.
      * change (11 - 9) with 2. cbn [Z.eqb Pos.eqb].
        destruct Hfeb as [H29 Hlast]; [done|].
        assert (Hl : d <= 28 \/
                     ((yoe + 1) mod 4 = 0
                      /\ ((yoe + 1) mod 100 <> 0 \/ (yoe + 1) mod 400 = 0))).
        { destruct (Z.le_gt_cases d 28); [by left|right].
          apply Hleap, Hlast. lia. }
        clear Hleap Hlast.
        split_bools; try lia; Z.div_mod_to_equations; lia.
    + unfold days_from_civil.
      replace (mp - 9 <=? 2) with true by lia.
      replace (2 <? mp - 9) with false by lia.
      replace (mp - 9 + 9) with mp by lia.
      replace (yoe + era * 400 + 1 - 1) with (yoe + era * 400) by lia.
      replace ((yoe + era * 400) / 400) with era by (Z.div_mod_to_equations; lia).
      replace ((yoe + era * 400) mod 400) with yoe by (Z.div_mod_to_equations; lia).
      lia.
Qed.

Lemma read_year_digit c rest :
  is_Some (char_digit c) -> read_year (String c rest) = read_digits 4 0 (String c rest).
Proof.
  intros [d Hd]. unfold read_year.
  destruct (Ascii.eqb_spec c "+") as [->|_]; [by vm_compute in Hd|].
  destruct (Ascii.eqb_spec c "-") as [->|_]; [by vm_compute in Hd|].
  done.
Qed.

Lemma expect_cons c rest : expect c (String c rest) = Some rest.
Proof. cbn. by rewrite Ascii.eqb_refl. Qed.

Lemma days_in_month_le y m : days_in_month y m <= 31.
Proof.
  unfold days_in_month.
  repeat match goal with |- context [if ?b then _ else _] => destruct b end; lia.
Qed.

Lemma read_year_digits y rest :
  0 <= y ->
  read_year (digits 4 y +:+ rest) = read_digits 4 0 (digits 4 y +:+ rest).
Proof.
  intros Hy. change (digits 4 y) with (String (digit_char (y / 10 ^ 3 mod 10)) (digits 3 y)).
  rewrite append_cons. apply read_year_digit.
  rewrite char_digit_char; [done|].
  pose proof (Z.mod_pos_bound (y / 10 ^ 3) 10). lia.
Qed.

Ltac read_field :=
  rewrite read_digits_digits by (Z.div_mod_to_equations; lia); cbn [mbind option_bind];
  rewrite ?append_cons, ?append_nil, ?expect_cons; cbn [mbind option_bind].

Lemma date_roundtrip t :
  min_iso_time <= t <= max_iso_time -> date_parse (toISOString t) = Some t.
Proof.
  unfold min_iso_time, max_iso_time. intros Ht.
  unfold toISOString, ms_per_day.
  pose proof (Z.mod_pos_bound t 86400000 eq_refl) as Hms.
  pose proof (Z.div_mod t 86400000) as Hdm.
  destruct (civil_roundtrip (t / 86400000)) as (y & m & d & Hciv & Hy & Hm & Hd & Hback).
  { unfold min_day, max_day. lia. }
  rewrite Hciv. set (ms := t mod 86400000) in *.
  unfold year_string.
  replace ((0 <=? y) && (y <=? 9999)) with true by lia.
  unfold date_parse.
  rewrite read_year_digits by lia.
  do 7 read_field.
  change (Z.of_nat 2) with 2. change (Z.of_nat 3) with 3. change (Z.of_nat 4) with 4.
  change (10 ^ 2) with 100. change (10 ^ 3) with 1000. change (10 ^ 4) with 10000.
  set (h := ms / 3600000). set (mi := (ms / 60000) mod 60).
  set (sec := (ms / 1000) mod 60). set (msec := ms mod 1000).
  assert (Hh : 0 <= h <= 23) by (unfold h; Z.div_mod_to_equations; lia).
  assert (Hmi : 0 <= mi <= 59) by (unfold mi; Z.div_mod_to_equations; lia).
  assert (Hsec : 0 <= sec <= 59) by (unfold sec; Z.div_mod_to_equations; lia).
  assert (Hmsec : 0 <= msec <= 999) by (unfold msec; Z.div_mod_to_equations; lia).
  assert (Hsum : h * 3600000 + mi * 60000 + sec * 1000 + msec = ms)
    by (unfold h, mi, sec, msec; Z.div_mod_to_equations; lia).
  pose proof (days_in_month_le y m) as Hdim.
  rewrite (Z.mod_small y), (Z.mod_small m), (Z.mod_small d), (Z.mod_small h),
    (Z.mod_small mi), (Z.mod_small sec), (Z.mod_small msec) by lia.
  change (0 * 100) with 0. change (0 * 1000) with 0. change (0 * 10000) with 0.
  rewrite !Z.add_0_l, Hback. unfold ms_per_day, max_time.
  replace (t / 86400000 * 86400000 + h * 3600000 + mi * 60000 + sec * 1000 + msec)
    with t by lia.
  replace (1 <=? m) with true by lia. replace (m <=? 12) with true by lia.
  replace (1 <=? d) with true by lia.
  replace (d <=? days_in_month y m) with true by lia.
  replace (h <=? 23) with true by lia. replace (mi <=? 59) with true by lia.
  replace (sec <=? 59) with true by lia.
  replace (Z.abs t <=? 8640000000000000) with true by lia.
  reflexivity.
Qed.

End DateFacts.

(** ** Running the storage accessors *)

Lemma readJson_run key fallback w :
  readJson key fallback w = (Return (read_value (ls w) key fallback), w).
Proof.
  unfold readJson, try_catch, bind, getItem, read_value.
  destruct (ls w !! key) as [[v|s]|]; simpl; try reflexivity.
  destruct (String.eqb s ""); reflexivity.
Qed.

Lemma bind_run {A B} (c : M A) (k : A -> M B) w a w' :
  c w = (Return a, w') -> bind c k w = k a w'.
Proof. unfold bind. intros ->. reflexivity. Qed.

Lemma stored_truthy s key v : stored s key = Some v -> truthy v = true.
Proof.
  unfold stored. destruct (s !! key) as [[u|]|]; try discriminate.
  destruct (truthy u) eqn:E; congruence.
Qed.

Lemma stored_lookup s key v : stored s key = Some v -> s !! key = Some (Json v).
Proof.
  unfold stored. destruct (s !! key) as [[u|]|]; try discriminate.
  destruct (truthy u); congruence.
Qed.

Lemma stored_read s key fallback :
  stored s key = (if truthy (read_value s key VNull)
                  then Some (read_value s key fallback) else None).
Proof.
  unfold stored, read_value. destruct (s !! key) as [[u|]|]; reflexivity.
Qed.

Lemma ensureSeed_run w : ensureSeed w = (Return (), set_ls seed w).
Proof.
  destruct w as [s n].
  unfold ensureSeed, seed, seed_resumes, seed_token, seed_user, set_ls, bind,
    writeJson, setItem, getItem, ret, JSON_stringify, set_ls.
  rewrite !readJson_run. cbn [ls tick].
  rewrite (stored_read s LS_KEYS.user VNull).
  destruct (truthy (read_value s LS_KEYS.user VNull)) eqn:Eu; cbn [negb ls tick];
    match goal with
    | |- context [text_truthy ?x] => destruct (text_truthy x) eqn:Et
    end; cbn [negb ls tick];
    rewrite !readJson_run; cbn [ls tick];
    rewrite (stored_read _ LS_KEYS.resumes VNull);
    match goal with
    | |- context [truthy ?x] => destruct (truthy x) eqn:Er
    end; reflexivity.
Qed.

Lemma stored_ext (s s' : gmap string text) key :
  s !! key = s' !! key -> stored s key = stored s' key.
Proof. unfold stored. by intros ->. Qed.

Lemma seed_user_lookup s k :
  seed_user s !! k =
    if decide (k = LS_KEYS.user)
    then Some (Json (default default_user (stored s LS_KEYS.user)))
    else s !! k.
Proof.
  unfold seed_user. destruct (stored s LS_KEYS.user) as [v|] eqn:E.
  - apply stored_lookup in E. case_decide; by subst.
  - case_decide; by simplify_map_eq.
Qed.

Lemma seed_token_lookup s k :
  seed_token s !! k =
    if decide (k = LS_KEYS.token)
    then (if text_truthy (s !! LS_KEYS.token) then s !! LS_KEYS.token
          else Some (Raw "local_token"))
    else s !! k.
Proof.
  unfold seed_token. destruct (text_truthy (s !! LS_KEYS.token));
    case_decide; by simplify_map_eq.
Qed.

Lemma seed_resumes_lookup s k :
  seed_resumes s !! k =
    if decide (k = LS_KEYS.resumes)
    then Some (Json (default (VArr []) (stored s LS_KEYS.resumes)))
    else s !! k.
Proof.
  unfold seed_resumes. destruct (stored s LS_KEYS.resumes) as [v|] eqn:E.
  - apply stored_lookup in E. case_decide; by subst.
  - case_decide; by simplify_map_eq.
Qed.

Lemma seed_lookup s k :
  seed s !! k =
    if decide (k = LS_KEYS.user) then
      Some (Json (default default_user (stored s LS_KEYS.user)))
    else if decide (k = LS_KEYS.token) then
      (if text_truthy (s !! LS_KEYS.token) then s !! LS_KEYS.token
       else Some (Raw "local_token"))
    else if decide (k = LS_KEYS.resumes) then
      Some (Json (default (VArr []) (stored s LS_KEYS.resumes)))
    else s !! k.
Proof.
  unfold seed. rewrite seed_resumes_lookup, seed_token_lookup, !seed_user_lookup.
  rewrite (stored_ext (seed_token (seed_user s)) s LS_KEYS.resumes);
    [|rewrite seed_token_lookup, !seed_user_lookup;
      unfold LS_KEYS.resumes, LS_KEYS.token, LS_KEYS.user;
      repeat case_decide; done].
  unfold LS_KEYS.resumes, LS_KEYS.token, LS_KEYS.user.
  repeat case_decide; subst; done.
Qed.

Lemma stored_seed_user s :
  stored (seed s) LS_KEYS.user = Some (default default_user (stored s LS_KEYS.user)).
Proof.
  unfold stored at 1. rewrite seed_lookup. simpl.
  destruct (stored s LS_KEYS.user) as [v|] eqn:E; simpl; [|done].
  by rewrite (stored_truthy _ _ _ E).
Qed.

Lemma stored_seed_resumes s :
  stored (seed s) LS_KEYS.resumes = Some (default (VArr []) (stored s LS_KEYS.resumes)).
Proof.
  unfold stored at 1. rewrite seed_lookup. simpl.
  destruct (stored s LS_KEYS.resumes) as [v|] eqn:E; simpl; [|done].
  by rewrite (stored_truthy _ _ _ E).
Qed.

Lemma token_seed s : text_truthy (seed s !! LS_KEYS.token) = true.
Proof.
  rewrite seed_lookup. simpl.
  by destruct (text_truthy (s !! LS_KEYS.token)) eqn:E.
Qed.

Lemma seed_idempotent s : seed (seed s) = seed s.
Proof.
  apply map_eq. intros k. rewrite (seed_lookup (seed s)).
  rewrite stored_seed_user, stored_seed_resumes, token_seed. simpl.
  rewrite (seed_lookup s k). repeat case_decide; subst; try done.
  rewrite seed_lookup; simpl. done.
Qed.

(** ** Running the repository and the update route *)

Lemma has_id_run id r : r <> VNull -> has_id id r = Return (strict_eq (id_of r) id).
Proof. by destruct r. Qed.

Lemma js_find_run id l :
  no_null l = true -> js_find (has_id id) l = Return (find_resume id l).
Proof.
  induction l as [|r l IH]; [done|]. cbn [no_null forallb].
  intros [Hr Hl]%andb_true_iff. cbn [js_find find_resume List.find].
  rewrite has_id_run by (by destruct r). cbn.
  destruct (strict_eq (id_of r) id); [done|]. by apply IH.
Qed.

Lemma js_findIndex_run id l i :
  no_null l = true ->
  js_findIndex (has_id id) i l = Return (Nat.add i <$> find_index id l).
Proof.
  revert i. induction l as [|r l IH]; intros i; [done|]. cbn [no_null forallb].
  intros [Hr Hl]%andb_true_iff. cbn [js_findIndex find_index].
  rewrite has_id_run by (by destruct r). cbn.
  destruct (strict_eq (id_of r) id); cbn.
  - by rewrite Nat.add_0_r.
  - rewrite IH by done. destruct (find_index id l); cbn; [|done].
    by rewrite Nat.add_succ_r.
Qed.

Lemma collection_seed s : collection (seed s) = collection s.
Proof. unfold collection. by rewrite seed_idempotent. Qed.

Lemma getResumes_run w :
  getResumes w = (Return (collection (ls w)), set_ls seed w).
Proof.
  unfold getResumes. rewrite (bind_run _ _ _ _ _ (ensureSeed_run w)).
  rewrite readJson_run. f_equal. f_equal. cbn.
  unfold collection, read_value. rewrite stored_seed_resumes, seed_lookup. done.
Qed.

Lemma found_truthy r v : strict_eq (id_of r) (Some v) = true -> truthy r = true.
Proof.
  destruct r as [| | |s| |]; try done. by destruct s.
Qed.

Lemma findResume_run id w l :
  collection (ls w) = VArr l -> no_null l = true ->
  findResume id w = (Return (or_else (find_resume id l) VNull), set_ls seed w).
Proof.
  intros Hc Hl. unfold findResume.
  rewrite (bind_run _ _ _ _ _ (getResumes_run w)), Hc.
  unfold lift, bind, ret. cbn [array_find]. by rewrite js_find_run.
Qed.

Lemma seed_insert_resumes s c :
  truthy c = true ->
  seed (<[LS_KEYS.resumes := Json c]> (seed s)) = <[LS_KEYS.resumes := Json c]> (seed s).
Proof.
  intros Hc. apply map_eq. intros k. rewrite seed_lookup.
  assert (Hu : stored (<[LS_KEYS.resumes:=Json c]> (seed s)) LS_KEYS.user
               = stored (seed s) LS_KEYS.user).
  { apply stored_ext. by rewrite lookup_insert_ne. }
  assert (Hr : stored (<[LS_KEYS.resumes:=Json c]> (seed s)) LS_KEYS.resumes = Some c).
  { unfold stored. rewrite lookup_insert_eq. by rewrite Hc. }
  rewrite Hu, Hr, stored_seed_user.
  rewrite (lookup_insert_ne _ LS_KEYS.resumes LS_KEYS.token) by done.
  rewrite token_seed. cbn.
  unfold LS_KEYS.user, LS_KEYS.token, LS_KEYS.resumes.
  repeat case_decide; subst; simplify_map_eq; try done.
  rewrite seed_lookup. cbn. done.
Qed.

Lemma collection_insert s c :
  truthy c = true -> collection (<[LS_KEYS.resumes := Json c]> (seed s)) = c.
Proof.
  intros Hc. unfold collection. rewrite seed_insert_resumes by done.
  unfold stored. rewrite lookup_insert_eq. by rewrite Hc.
Qed.

Lemma upsertResume_run u w l :
  collection (ls w) = VArr l -> no_null l = true ->
  upsertResume u w
  = (Return (),
     set_ls (fun s => <[LS_KEYS.resumes := Json (VArr (upsert u l))]> (seed s)) w).
Proof.
  intros Hc Hl. unfold upsertResume.
  rewrite (bind_run _ _ _ _ _ (getResumes_run w)), Hc.
  unfold lift, bind. cbn [array_findIndex]. rewrite js_findIndex_run by done.
  unfold upsert. destruct (find_index (u !! "_id") l); reflexivity.
Qed.

Section Update.
Variable clock : nat -> Z.
Variable random : nat -> list nat.

Lemma nowIso_run w :
  nowIso clock w
  = (Return (Platform.toISOString (clock (tick w))), {| ls := ls w; tick := S (tick w) |}).
Proof. reflexivity. Qed.

Lemma handleRequest_update b w :
  handleRequest clock random "PUT" (Some "/api/resumes/update") b w
  = update_route clock b (set_ls seed w).
Proof.
  unfold handleRequest. rewrite (bind_run _ _ _ _ _ (ensureSeed_run w)).
  reflexivity.
Qed.

Lemma findResume_world id w : (findResume id w).2 = set_ls seed w.
Proof.
  unfold findResume. rewrite (bind_run _ _ _ _ _ (getResumes_run w)).
  unfold bind, lift, ret.
  by destruct (array_find (has_id id) (collection (ls w))).
Qed.

Lemma upsertResume_throw u w e w' :
  upsertResume u w = (Throw e, w') -> ls w' = seed (ls w).
Proof.
  unfold upsertResume. rewrite (bind_run _ _ _ _ _ (getResumes_run w)).
  unfold bind, lift, throw.
  destruct (array_findIndex _ _) as [idx|e0]; [|by intros [= _ <-]].
  destruct (collection (ls w)); try (by intros [= _ <-]).
  by destruct idx.
Qed.

(** A failed update leaves in the storage what the seed step made of it. *)
Lemma update_route_throw b w e w' :
  update_route clock b w = (Throw e, w') -> ls w' = seed (ls w) \/ ls w' = ls w.
Proof.
  unfold update_route. unfold bind at 1. unfold lift at 1.
  destruct (update_args b) as [[[rid rd] img]|e0]; [|intros [= _ <-]; by right].
  destruct (truthy_opt rid); cbn [negb]; [|intros [= _ <-]; by right].
  unfold bind at 1.
  pose proof (findResume_world rid w) as Hw.
  destruct (findResume rid w) as [[existing|e1] w1]; cbn in Hw; subst w1;
    [|intros [= _ <-]; by left].
  destruct (truthy existing); cbn [negb]; [|intros [= _ <-]; by left].
  unfold bind at 1, lift at 1.
  destruct (get_prop existing "personal_info") as [old|e2]; [|intros [= _ <-]; by left].
  unfold bind at 1, lift at 1.
  destruct (get_prop rd "personal_info") as [new|e3]; [|intros [= _ <-]; by left].
  unfold bind at 1. rewrite nowIso_run.
  unfold bind at 1.
  match goal with
  | |- context [upsertResume ?u ?w0] =>
      destruct (upsertResume u w0) as [[[]|e4] w2] eqn:Hu
  end; [done|].
  intros [= _ <-]. apply upsertResume_throw in Hu. cbn in Hu.
  left. by rewrite Hu, seed_idempotent.
Qed.

Lemma find_resume_some id l r :
  find_resume id l = Some r -> strict_eq (id_of r) id = true /\ r ∈ l.
Proof.
  intros H. apply find_some in H as [Hin H]. split; [done|].
  by apply list_elem_of_In.
Qed.

Lemma update_route_ok b w rid rd img l existing :
  update_args b = Return (Some rid, rd, img) ->
  truthy rid = true ->
  collection (ls w) = VArr l -> no_null l = true ->
  find_resume (Some rid) l = Some existing ->
  rd <> VNull ->
  let next :=
    with_image img
      (merged existing rd (own_props existing !! "personal_info")
         (own_props rd !! "personal_info")
         (Platform.toISOString (clock (tick w)))) in
  handleRequest clock random "PUT" (Some "/api/resumes/update") b w
  = (Return (obj [("resume", VObj next); ("message", VStr "Resume updated")]),
     {| ls := <[LS_KEYS.resumes := Json (VArr (upsert next l))]> (seed (ls w));
        tick := S (tick w) |}).
Proof.
  intros Ha Hrid Hc Hl Hf Hrd next. rewrite handleRequest_update.
  unfold update_route. rewrite Ha. unfold bind at 1, lift at 1.
  cbn [truthy_opt]. rewrite Hrid. cbn [negb].
  assert (Hc' : collection (ls (set_ls seed w)) = VArr l)
    by (cbn; by rewrite collection_seed).
  destruct (find_resume_some _ _ _ Hf) as [Hid _].
  pose proof (found_truthy _ _ Hid) as Ht.
  assert (Hex : existing <> VNull) by (intros ->; done).
  assert (Hfound : or_else (find_resume (Some rid) l) VNull = existing)
    by (rewrite Hf; cbn; by rewrite Ht).
  rewrite (bind_run _ _ _ _ _ (findResume_run _ _ _ Hc' Hl)).
  rewrite Hfound, Ht. cbn [negb].
  unfold bind at 1, lift at 1.
  replace (get_prop existing "personal_info")
    with (Return (own_props existing !! "personal_info")) by (by destruct existing).
  unfold bind at 1, lift at 1.
  replace (get_prop rd "personal_info")
    with (Return (own_props rd !! "personal_info")) by (by destruct rd).
  unfold bind at 1. rewrite nowIso_run. cbn [ls tick set_ls]. fold next.
  unfold bind at 1.
  rewrite (upsertResume_run next _ l);
    [|cbn; by rewrite !collection_seed|done].
  unfold ret, set_ls. cbn [ls tick]. by rewrite !seed_idempotent.
Qed.

Lemma update_route_400 b w rid rd img :
  update_args b = Return (rid, rd, img) ->
  truthy_opt rid = false ->
  handleRequest clock random "PUT" (Some "/api/resumes/update") b w
  = (Throw (Rejected (axiosLikeError "resumeId is required" (Some 400))),
     set_ls seed w).
Proof.
  intros Ha Hrid. rewrite handleRequest_update.
  unfold update_route. rewrite Ha. unfold bind at 1, lift at 1.
  by rewrite Hrid.
Qed.

Lemma update_route_unreadable b w :
  update_args b = Throw SyntaxError ->
  handleRequest clock random "PUT" (Some "/api/resumes/update") b w
  = (Throw SyntaxError, set_ls seed w).
Proof.
  intros Ha. rewrite handleRequest_update. unfold update_route.
  rewrite Ha. reflexivity.
Qed.

Lemma update_route_404 b w rid rd img l :
  update_args b = Return (rid, rd, img) ->
  truthy_opt rid = true ->
  collection (ls w) = VArr l -> no_null l = true ->
  find_resume rid l = None ->
  handleRequest clock random "PUT" (Some "/api/resumes/update") b w
  = (Throw (Rejected (axiosLikeError "Resume not found" (Some 404))),
     set_ls seed w).
Proof.
  intros Ha Hrid Hc Hl Hf. rewrite handleRequest_update.
  unfold update_route. rewrite Ha. unfold bind at 1, lift at 1.
  rewrite Hrid. cbn [negb].
  assert (Hc' : collection (ls (set_ls seed w)) = VArr l)
    by (cbn; by rewrite collection_seed).
  rewrite (bind_run _ _ _ _ _ (findResume_run _ _ _ Hc' Hl)).
  rewrite Hf. cbn. unfold set_ls; cbn. by rewrite seed_idempotent.
Qed.

End Update.

(** ** The storage accessor never fails its caller *)

(** C9.  Reading a key always returns, and leaves the world as it was; the
    answer is the fallback when the key is absent, when its text is empty,
    and when [JSON.parse] refuses its text. *)
Theorem readJson_never_fails (key : string) (fallback : value) (w : world) :
  exists v,
    readJson key fallback w = (Return v, w)
    /\ (ls w !! key = None -> v = fallback)
    /\ (ls w !! key = Some (Raw "") -> v = fallback)
    /\ (forall t, ls w !! key = Some t -> JSON_parse t = Throw SyntaxError ->
         v = fallback).
Proof.
  exists (read_value (ls w) key fallback). split; [apply readJson_run|].
  unfold read_value. repeat split.
  - by intros ->.
  - by intros ->.
  - intros t -> Ht. by destruct t.
Qed.

(** ** Seeding *)

Lemma run_seed_eq w : run_seed w = set_ls seed w.
Proof. unfold run_seed. by rewrite ensureSeed_run. Qed.

Lemma run_seed_again n w : Nat.iter n run_seed (run_seed w) = run_seed w.
Proof.
  induction n as [|n IH]; [done|].
  simpl. rewrite IH, !run_seed_eq. unfold set_ls; simpl.
  by rewrite seed_idempotent.
Qed.

(** C8, amended.  The seed step returns; it gives its default to each of
    the three slots that holds nothing usable (for the user and the
    collection: no text, an empty text, a text that is no JSON or the JSON
    of a falsy value; for the token: no text or an empty one) and leaves
    every other slot as it was; running it again any number of times
    changes nothing. *)
Theorem ensureSeed_idempotent (w : world) :
  ensureSeed w = (Return (), set_ls seed w)
  /\ ls (run_seed w) !! LS_KEYS.user
     = Some (Json (default default_user (stored (ls w) LS_KEYS.user)))
  /\ ls (run_seed w) !! LS_KEYS.token
     = (if text_truthy (ls w !! LS_KEYS.token) then ls w !! LS_KEYS.token
        else Some (Raw "local_token"))
  /\ ls (run_seed w) !! LS_KEYS.resumes
     = Some (Json (default (VArr []) (stored (ls w) LS_KEYS.resumes)))
  /\ (forall v, stored (ls w) LS_KEYS.user = Some v ->
       ls (run_seed w) !! LS_KEYS.user = ls w !! LS_KEYS.user)
  /\ (forall v, stored (ls w) LS_KEYS.resumes = Some v ->
       ls (run_seed w) !! LS_KEYS.resumes = ls w !! LS_KEYS.resumes)
  /\ (forall k, k <> LS_KEYS.user -> k <> LS_KEYS.token -> k <> LS_KEYS.resumes ->
       ls (run_seed w) !! k = ls w !! k)
  /\ (forall n, Nat.iter n run_seed (run_seed w) = run_seed w).
Proof.
  pose proof run_seed_eq as Hrun.
  rewrite Hrun. cbn [set_ls ls].
  split; [apply ensureSeed_run|]. rewrite !seed_lookup. cbn.
  repeat split; try done.
  - intros v Hv. rewrite Hv. cbn. symmetry. by apply stored_lookup.
  - intros v Hv. rewrite Hv. cbn. symmetry. by apply stored_lookup.
  - intros k H1 H2 H3. rewrite seed_lookup. by repeat case_decide.
  - intros n. rewrite <- Hrun. apply run_seed_again.
Qed.

(** ** Unmatched routes *)

Lemma handleRequest_unrouted clock random method url body w :
  routed method (normalizeUrl url) = false ->
  handleRequest clock random method url body w
  = (Throw (Rejected (not_found method (normalizeUrl url))), set_ls seed w).
Proof.
  intros H. unfold handleRequest.
  rewrite (bind_run _ _ _ _ _ (ensureSeed_run w)).
  unfold routed, route_table in H.
  cbn [List.existsb] in H. unfold route_matches, pattern_matches in H.
  cbn [fst snd] in H.
  destruct (orb_false_elim _ _ H) as [H1 H']; clear H.
  destruct (orb_false_elim _ _ H') as [H2 H]; clear H'.
  destruct (orb_false_elim _ _ H) as [H3 H']; clear H.
  destruct (orb_false_elim _ _ H') as [H4 H]; clear H'.
  destruct (orb_false_elim _ _ H) as [H5 H']; clear H.
  destruct (orb_false_elim _ _ H') as [H6 H]; clear H'.
  destruct (orb_false_elim _ _ H) as [H7 H']; clear H.
  destruct (orb_false_elim _ _ H') as [H8 H]; clear H'.
  destruct (orb_false_elim _ _ H) as [H9 H']; clear H.
  destruct (orb_false_elim _ _ H') as [H10 H]; clear H'.
  destruct (orb_false_elim _ _ H) as [H11 H']; clear H.
  destruct (orb_false_elim _ _ H') as [H12 _]; clear H'.
  cbn zeta.
  rewrite H1.
  rewrite H2.
  rewrite andb_orb_distrib_r, H3, H4.
  cbn [orb].
  rewrite H5, H6, H7, H8, H9, H10, H11, H12.
  reflexivity.
Qed.

(** C6.  A request that no route of the table takes is rejected with the
    structured error [{message, response: {status, data: {message}}}], of
    status 404 and with a message made of the method and the path; and a
    structured error has status 400 unless another one is given. *)
Theorem unmatched_route_rejected :
  (forall clock random method url body w,
     routed method (normalizeUrl url) = false ->
     exists e w',
       handleRequest clock random method url body w = (Throw (Rejected e), w')
       /\ status (response e) = 404
       /\ message e = "No local route for " +:+ method +:+ " " +:+ normalizeUrl url
       /\ data_message (data (response e)) = message e)
  /\ (forall m, status (response (axiosLikeError m None)) = 400)
  /\ (forall m st, status (response (axiosLikeError m (Some st))) = st)
  /\ (forall m st, message (axiosLikeError m st) = m
                   /\ data_message (data (response (axiosLikeError m st))) = m).
Proof.
  split; [|done].
  intros clock random method url body w H.
  exists (not_found method (normalizeUrl url)), (set_ls seed w).
  split; [by apply handleRequest_unrouted|done].
Qed.

Lemma unmatched_route_witness :
  exists e w',
    handleRequest (fun _ => 0) (fun _ => []) "GET" (Some "/api/nonexistent") NoBody
      {| ls := ∅; tick := 0 |} = (Throw (Rejected e), w')
    /\ status (response e) = 404
    /\ message e = "No local route for GET /api/nonexistent"
    /\ data_message (data (response e)) = message e.
Proof.
  apply (proj1 unmatched_route_rejected (fun _ => 0) (fun _ => []) "GET"
           (Some "/api/nonexistent") NoBody {| ls := ∅; tick := 0 |}).
  vm_compute. reflexivity.
Defined.

(** ** The merged resume *)

Lemma union_lookup (a b : props) k :
  (a ∪ b) !! k = match a !! k with Some v => Some v | None => b !! k end.
Proof.
  destruct (a !! k) as [v|] eqn:E.
  - by apply lookup_union_Some_l.
  - by apply lookup_union_r.
Qed.

Lemma merged_lookup existing rd old_info new_info now k :
  k <> "personal_info" -> k <> "updatedAt" ->
  merged existing rd old_info new_info now !! k
  = match own_props rd !! k with
    | Some v => Some v
    | None => own_props existing !! k
    end.
Proof.
  intros H1 H2. unfold merged, spread2.
  rewrite !lookup_insert_ne by done. apply union_lookup.
Qed.

Lemma with_image_lookup img next k :
  k <> "personal_info" -> with_image img next !! k = next !! k.
Proof.
  intros H. destruct img as [[u|]|]; cbn; try done.
  by rewrite lookup_insert_ne.
Qed.

Lemma with_image_info existing rd old_info new_info now img :
  with_image img (merged existing rd old_info new_info now) !! "personal_info"
  = Some (VObj (let info := spread2 (or_else old_info (VObj ∅))
                              (or_else new_info (VObj ∅)) in
                match img with
                | Some (Some u) => <["image" := VStr u]> info
                | _ => info
                end)).
Proof.
  destruct img as [[u|]|]; cbn -[merged].
  - rewrite lookup_insert_eq. unfold merged.
    rewrite lookup_insert_ne by done. by rewrite lookup_insert_eq.
  - unfold merged. rewrite lookup_insert_ne by done. by rewrite lookup_insert_eq.
  - unfold merged. rewrite lookup_insert_ne by done. by rewrite lookup_insert_eq.
Qed.

Lemma strict_eq_eq a b : strict_eq a b = true -> a = b.
Proof.
  destruct a as [[| x | x | x | |]|], b as [[| y | y | y | |]|]; cbn; try done.
  - by intros ->%Bool.eqb_prop.
  - by intros ->%Z.eqb_eq.
  - by intros ->%String.eqb_eq.
Qed.

(** The body of an update can be read, or it is a multipart body with a
    [resumeData] part that [JSON.parse] refuses. *)
Lemma update_args_cases b :
  (exists args, update_args b = Return args /\ ~ unreadable b)
  \/ (update_args b = Throw SyntaxError /\ unreadable b).
Proof.
  destruct b as [|v|[rid [[v|s]|] img]].
  - left. eexists. split; [done|]. by intros (fd & s & [=] & _).
  - left. eexists. split; [done|]. by intros (fd & s & [=] & _).
  - left. eexists. split; [done|]. intros (fd & s & [= <-] & [=] & _).
  - destruct (String.eqb_spec s "") as [->|Hs].
    + left. eexists. split; [done|]. by intros (fd & s & [= <-] & [= <-] & H).
    + right. split.
      * cbn. by apply String.eqb_neq in Hs as ->.
      * by exists {| fd_resumeId := rid; fd_resumeData := Some (Raw s);
                     fd_image := img |}, s.
  - left. eexists. split; [done|]. intros (fd & s & [= <-] & [=] & _).
Qed.

(** ** What [upsertResume] does to the list *)

Lemma find_index_some id l i :
  find_index id l = Some i ->
  exists r, l !! i = Some r /\ strict_eq (id_of r) id = true
            /\ find_resume id l = Some r.
Proof.
  revert i. induction l as [|x l IH]; intros i; [done|].
  cbn [find_index find_resume List.find].
  destruct (strict_eq (id_of x) id) eqn:E.
  - intros [= <-]. by exists x.
  - destruct (find_index id l) as [k|]; [|done]. intros [= <-].
    destruct (IH k eq_refl) as (r & H1 & H2 & H3). by exists r.
Qed.

Lemma find_index_none id l : find_index id l = None -> find_resume id l = None.
Proof.
  induction l as [|x l IH]; [done|]. cbn [find_index find_resume List.find].
  destruct (strict_eq (id_of x) id); [done|].
  destruct (find_index id l); [done|]. intros _. by apply IH.
Qed.

Lemma find_index_resume id l r :
  find_resume id l = Some r -> exists i, find_index id l = Some i /\ l !! i = Some r.
Proof.
  induction l as [|x l IH]; [done|]. cbn [find_index find_resume List.find].
  destruct (strict_eq (id_of x) id).
  - intros [= <-]. by exists 0%nat.
  - intros H. destruct (IH H) as (i & -> & Hi). by exists (S i).
Qed.

(** Every position keeps a resume of the id it had. *)
Lemma upsert_keeps_ids u l j r :
  l !! j = Some r ->
  exists r', upsert u l !! j = Some r' /\ id_of r' = id_of r.
Proof.
  intros Hj. unfold upsert.
  destruct (find_index (u !! "_id") l) as [i|] eqn:Ei.
  - destruct (find_index_some _ _ _ Ei) as (x & Hx & Hid%strict_eq_eq & _).
    destruct (decide (j = i)) as [->|Hne].
    + exists (VObj u). split.
      * apply list_lookup_insert_eq. by eapply lookup_lt_Some.
      * rewrite Hx in Hj. injection Hj as <-. by rewrite Hid.
    + exists r. split; [|done]. by rewrite list_lookup_insert_ne.
  - exists r. split; [|done]. by apply lookup_app_l_Some.
Qed.

(** A resume of another id is left as it was. *)
Lemma upsert_keeps_others u l j r :
  l !! j = Some r -> strict_eq (id_of r) (u !! "_id") = false ->
  upsert u l !! j = Some r.
Proof.
  intros Hj Hid. unfold upsert.
  destruct (find_index (u !! "_id") l) as [i|] eqn:Ei.
  - destruct (find_index_some _ _ _ Ei) as (x & Hx & Hx' & _).
    rewrite list_lookup_insert_ne; [done|]. intros <-. congruence.
  - by apply lookup_app_l_Some.
Qed.

(** The resume takes the place of the first one of its id, or goes to the
    end when there is none. *)
Lemma upsert_shape u l :
  (exists i r, find_index (u !! "_id") l = Some i
               /\ find_resume (u !! "_id") l = Some r /\ l !! i = Some r
               /\ upsert u l = <[i := VObj u]> l)
  \/ (find_resume (u !! "_id") l = None /\ upsert u l = (l ++ [VObj u])%list).
Proof.
  unfold upsert. destruct (find_index (u !! "_id") l) as [i|] eqn:Ei.
  - left. destruct (find_index_some _ _ _ Ei) as (x & Hx & _ & Hf).
    by exists i, x.
  - right. split; [by apply find_index_none|done].
Qed.

Section UpdateClaims.
Variable clock : nat -> Z.
Variable random : nat -> list nat.

(** C1, amended.  A partial update of an existing resume answers the
    merged resume and stores it: a field that the data does not carry, other
    than [personal_info] and [updatedAt], keeps its value, and one that it
    carries takes the new value; [personal_info] is the old one with the
    keys of the new one added or overwritten (and with the image that was
    read, if any); [updatedAt] is the reading of the clock taken by the
    update, so it is later than the previous one exactly when that reading
    is. *)
Theorem partial_update_merge b w rid rd img l existing :
  update_args b = Return (Some rid, rd, img) ->
  truthy rid = true ->
  collection (ls w) = VArr l -> no_null l = true ->
  find_resume (Some rid) l = Some existing ->
  rd <> VNull ->
  let old_info := own_props (or_else (own_props existing !! "personal_info") (VObj ∅)) in
  let new_info := own_props (or_else (own_props rd !! "personal_info") (VObj ∅)) in
  let now := clock (tick w) in
  exists next info w',
    put_update clock random b w
    = (Return (obj [("resume", VObj next); ("message", VStr "Resume updated")]), w')
    /\ collection (ls w') = VArr (upsert next l)
    /\ (forall k, k <> "personal_info" -> k <> "updatedAt" ->
        next !! k = match own_props rd !! k with
                    | Some v => Some v
                    | None => own_props existing !! k
                    end)
    /\ next !! "personal_info" = Some (VObj info)
    /\ (forall k, (k = "image" -> forall u, img <> Some (Some u)) ->
        info !! k = match new_info !! k with
                    | Some v => Some v
                    | None => old_info !! k
                    end)
    /\ (forall u, img = Some (Some u) -> info !! "image" = Some (VStr u))
    /\ next !! "updatedAt" = Some (VStr (Platform.toISOString now))
    /\ (Platform.min_iso_time <= now <= Platform.max_iso_time ->
        updated_time (VObj next) = Some now
        /\ forall t, updated_time existing = Some t ->
                     (t < now <-> exists t', updated_time (VObj next) = Some t' /\ t < t')).
Proof.
  intros Ha Hrid Hc Hl Hf Hrd old_info new_info now.
  eexists _, _, _. split; [by eapply update_route_ok|].
  assert (Hup : forall img' n, with_image img' n !! "updatedAt" = n !! "updatedAt")
    by (intros; by apply with_image_lookup).
  split; [|split; [|split; [|split; [|split; [|split]]]]].
  - cbn [ls]. by apply collection_insert.
  - intros k H1 H2. rewrite with_image_lookup by done. by apply merged_lookup.
  - apply with_image_info.
  - intros k Hk. cbn zeta. fold old_info new_info.
    destruct img as [[u|]|]; unfold spread2; [|apply union_lookup..].
    destruct (decide (k = "image")) as [->|Hne]; [by destruct (Hk eq_refl u)|].
    rewrite lookup_insert_ne by done. apply union_lookup.
  - intros u ->. cbn zeta. by rewrite lookup_insert_eq.
  - rewrite Hup. unfold merged. by rewrite lookup_insert_eq.
  - intros Hnow.
    assert (Hnext : updated_time
              (VObj (with_image img
                       (merged existing rd (own_props existing !! "personal_info")
                          (own_props rd !! "personal_info")
                          (Platform.toISOString (clock (tick w)))))) = Some now).
    { unfold updated_time. cbn [own_props]. rewrite Hup. unfold merged.
      rewrite lookup_insert_eq. cbn [Platform.date_time].
      by apply DateFacts.date_roundtrip. }
    split; [done|]. intros t Ht. rewrite Hnext. split.
    + intros Hlt. by exists now.
    + by intros (t' & [= <-] & Hlt).
Qed.

(** C3, amended.  On a collection without null entries, an update that
    goes through stores the resume it answers, and no stored resume changes
    its id: every position of the collection keeps a resume of the id it
    had, a stored resume whose id is not that of the answered one is left as
    it was, and the answered resume takes the place of the first stored
    resume of its id, or goes to the end when there is none.  The answered
    resume has the id of the resume it was made from when the data carries
    no id, and it then takes the place of that resume; when the data
    carries an id the answered resume has that id, and when this is another
    id the resume named by the request stays stored as it was. *)
Theorem update_id b w rid rd img l existing :
  update_args b = Return (Some rid, rd, img) ->
  truthy rid = true ->
  collection (ls w) = VArr l -> no_null l = true ->
  find_resume (Some rid) l = Some existing ->
  rd <> VNull ->
  exists next w',
    put_update clock random b w
    = (Return (obj [("resume", VObj next); ("message", VStr "Resume updated")]), w')
    /\ collection (ls w') = VArr (upsert next l)
    /\ id_of existing = Some rid
    /\ (own_props rd !! "_id" = None -> next !! "_id" = id_of existing)
    /\ (forall v, own_props rd !! "_id" = Some v -> next !! "_id" = Some v)
    /\ (forall j r, l !! j = Some r ->
          exists r', upsert next l !! j = Some r' /\ id_of r' = id_of r)
    /\ (forall j r, l !! j = Some r ->
          strict_eq (id_of r) (next !! "_id") = false ->
          upsert next l !! j = Some r)
    /\ ((exists i r, find_index (next !! "_id") l = Some i
                     /\ find_resume (next !! "_id") l = Some r /\ l !! i = Some r
                     /\ upsert next l = <[i := VObj next]> l)
        \/ (find_resume (next !! "_id") l = None
            /\ upsert next l = (l ++ [VObj next])%list))
    /\ (next !! "_id" = Some rid ->
          exists i, l !! i = Some existing
                    /\ upsert next l = <[i := VObj next]> l)
    /\ (next !! "_id" <> Some rid -> existing ∈ upsert next l).
Proof.
  intros Ha Hrid Hc Hl Hf Hrd.
  eexists _, _. split; [by eapply update_route_ok|].
  set (next := with_image _ _).
  destruct (find_resume_some _ _ _ Hf) as [Hid Hin].
  pose proof (strict_eq_eq _ _ Hid) as Hid'.
  split; [cbn [ls]; by apply collection_insert|].
  split; [done|].
  assert (Hn : next !! "_id" = match own_props rd !! "_id" with
                               | Some v => Some v
                               | None => own_props existing !! "_id"
                               end).
  { unfold next. by rewrite with_image_lookup, merged_lookup by done. }
  split; [by intros E; rewrite Hn, E|].
  split; [by intros v E; rewrite Hn, E|].
  split; [intros j r; apply upsert_keeps_ids|].
  split; [intros j r; apply upsert_keeps_others|].
  split; [apply upsert_shape|].
  split.
  - intros E. destruct (find_index_resume _ _ _ Hf) as (i & Hi & Hx).
    exists i. split; [done|]. unfold upsert. by rewrite E, Hi.
  - intros E. destruct (find_index_resume _ _ _ Hf) as (i & Hi & Hx).
    apply (list_elem_of_lookup_2 _ i). apply upsert_keeps_others; [done|].
    destruct (strict_eq (id_of existing) (next !! "_id")) eqn:Es; [|done].
    apply strict_eq_eq in Es. congruence.
Qed.

(** C7, amended.  A body of the update can be read, or it is a multipart
    body whose [resumeData] part is a text that is not empty and no JSON.
    On a collection without null entries, and when the body can be read:
    the update is rejected with status 400 exactly when the [resumeId] is
    missing or falsy; with status 404 when no resume has the [resumeId];
    and when one has it (and the data is not null) the update answers the
    merged resume and stores it.  For every body that cannot be read, on
    every storage, the update fails with the exception of the parser, which
    has no status, and has written nothing but the seed. *)
Theorem update_outcomes :
  (forall b w rid rd img l,
     update_args b = Return (rid, rd, img) ->
     collection (ls w) = VArr l -> no_null l = true ->
     ((exists e w', put_update clock random b w = (Throw (Rejected e), w')
                    /\ status (response e) = 400)
      <-> truthy_opt rid = false)
     /\ (truthy_opt rid = true -> find_resume rid l = None ->
         exists e w', put_update clock random b w = (Throw (Rejected e), w')
                      /\ status (response e) = 404
                      /\ message e = "Resume not found")
     /\ (truthy_opt rid = true -> rd <> VNull ->
         forall existing, find_resume rid l = Some existing ->
         exists next w',
           put_update clock random b w
           = (Return (obj [("resume", VObj next); ("message", VStr "Resume updated")]), w')
           /\ next = with_image img
                       (merged existing rd (own_props existing !! "personal_info")
                          (own_props rd !! "personal_info")
                          (Platform.toISOString (clock (tick w))))
           /\ collection (ls w') = VArr (upsert next l)))
  /\ (forall b w, unreadable b ->
        put_update clock random b w = (Throw SyntaxError, set_ls seed w))
  /\ (forall b, unreadable b \/ exists args, update_args b = Return args).
Proof.
  split; [|split]; cycle 1.
  { intros b w Hb.
    destruct (update_args_cases b) as [(args & _ & Hn)|[Ha _]]; [done|].
    by apply update_route_unreadable. }
  { intros b. destruct (update_args_cases b) as [(args & Ha & _)|[_ Hb]].
    - right. by exists args.
    - by left. }
  intros b w rid rd img l Ha Hc Hl. split; [split|split].
  - intros (e & w' & Hrun & Hst).
    destruct (truthy_opt rid) eqn:Hrid; [exfalso|done].
    destruct (find_resume rid l) as [existing|] eqn:Hf.
    + destruct rid as [rid|]; [|done].
      assert (rd = VNull \/ rd <> VNull) as [->|Hrd]
        by (destruct rd; (by left) || (by right)).
      * unfold put_update in Hrun. rewrite handleRequest_update in Hrun.
        unfold update_route in Hrun. rewrite Ha in Hrun.
        unfold bind at 1, lift at 1 in Hrun. rewrite Hrid in Hrun.
        cbn [negb] in Hrun.
        assert (Hc' : collection (ls (set_ls seed w)) = VArr l)
          by (cbn; by rewrite collection_seed).
        destruct (find_resume_some _ _ _ Hf) as [Hid _].
        pose proof (found_truthy _ _ Hid) as Ht.
        assert (Hfound : or_else (find_resume (Some rid) l) VNull = existing)
          by (rewrite Hf; cbn; by rewrite Ht).
        rewrite (bind_run _ _ _ _ _ (findResume_run _ _ _ Hc' Hl)) in Hrun.
        rewrite Hfound, Ht in Hrun. cbn [negb] in Hrun.
        unfold bind at 1, lift at 1 in Hrun.
        replace (get_prop existing "personal_info")
          with (Return (own_props existing !! "personal_info")) in Hrun
          by (by destruct existing).
        unfold bind at 1, lift at 1 in Hrun.
        done.
      * unfold put_update in Hrun.
        by rewrite (update_route_ok clock random b w rid rd img l existing) in Hrun.
    + unfold put_update in Hrun.
      rewrite (update_route_404 clock random b w rid rd img l) in Hrun by done.
      injection Hrun as <- _. done.
  - intros Hrid. eexists _, _. split; [by eapply update_route_400|done].
  - intros Hrid Hf. eexists _, _. split; [by eapply update_route_404|done].
  - intros Hrid Hrd existing Hf. destruct rid as [rid|]; [|done].
    eexists _, _. split; [by eapply update_route_ok|]. split; [done|].
    cbn [ls]. by apply collection_insert.
Qed.

(** C10, amended.  Whenever the update fails, what the storage holds is
    what the seed step makes of what it held: nothing else was written.  On
    a seeded storage nothing changes, and the collection the repository
    reads is the same before and after. *)
Theorem failed_update_writes b w e w' :
  put_update clock random b w = (Throw e, w') ->
  ls w' = seed (ls w)
  /\ collection (ls w') = collection (ls w)
  /\ (seed (ls w) = ls w -> ls w' = ls w).
Proof.
  unfold put_update. rewrite handleRequest_update. intros H.
  apply update_route_throw in H. cbn [set_ls ls] in H.
  rewrite seed_idempotent in H.
  assert (Hls : ls w' = seed (ls w)) by (by destruct H).
  rewrite Hls. split; [done|]. split; [apply collection_seed|by intros ->].
Qed.

End UpdateClaims.

(** ** Strings of identifiers *)

Module IdFacts.
Import Platform.

Lemma plain_cons c s : plain (String c s) = negb (special c) && plain s.
Proof. unfold plain. cbn. by rewrite negb_orb. Qed.

Lemma plain_app s t : plain s = true -> plain t = true -> plain (s +:+ t) = true.
Proof.
  induction s as [|c s IH]; [done|]. rewrite append_cons, !plain_cons.
  intros [Hc Hs]%andb_true_iff Ht. rewrite Hc. cbn. by apply IH.
Qed.

Lemma digit36_plain d : special (digit36 (d mod 36)) = false.
Proof.
  assert (H : all_from 36 0 (fun d => negb (special (digit36 d))) = true)
    by (vm_compute; reflexivity).
  apply negb_true_iff, (all_from_spec 36 0 _ H).
  pose proof (Z.mod_pos_bound d 36). lia.
Qed.

Lemma base36_go_plain fuel n acc :
  plain acc = true -> plain (base36_go fuel n acc) = true.
Proof.
  revert n acc. induction fuel as [|fuel IH]; intros n acc Hacc; [done|].
  cbn [base36_go].
  assert (H : plain (String (digit36 (n mod 36)) acc) = true)
    by (by rewrite plain_cons, digit36_plain, Hacc).
  destruct (n <? 36); [done|]. by apply IH.
Qed.

Lemma log2_div36 n : 36 <= n -> Z.log2 (n / 36) < Z.log2 n.
Proof.
  intros Hn.
  assert (H1 : n / 36 <= n / 2) by (Z.div_mod_to_equations; lia).
  assert (H2 : Z.log2 (n / 2) = Z.log2 n - 1).
  { rewrite <- Z.div2_div, Z.div2_spec, Z.log2_shiftr by lia.
    pose proof (Z.log2_le_mono 2 n). change (Z.log2 2) with 1 in *. lia. }
  pose proof (Z.log2_le_mono _ _ H1). lia.
Qed.

(** The fuel of [toString36] is enough: more fuel gives the same digits. *)
Lemma base36_go_fuel fuel extra n acc :
  0 <= n -> (Z.to_nat (Z.log2 n) < fuel)%nat ->
  base36_go (fuel + extra) n acc = base36_go fuel n acc.
Proof.
  revert n acc. induction fuel as [|fuel IH]; intros n acc Hn Hf; [lia|].
  cbn [base36_go Nat.add]. destruct (Z.ltb_spec n 36) as [|H36]; [done|].
  apply IH; [Z.div_mod_to_equations; lia|].
  pose proof (log2_div36 n H36). pose proof (Z.log2_nonneg (n / 36)). lia.
Qed.

Lemma toString36_plain n : plain (toString36 n) = true.
Proof.
  unfold toString36. destruct (n <? 0).
  - apply plain_app; [done|]. by apply base36_go_plain.
  - by apply base36_go_plain.
Qed.

Lemma fraction36_plain ds : plain (fraction36 ds) = true.
Proof.
  unfold fraction36. induction (firstn 8 ds) as [|d l IH]; [done|].
  cbn [map string_of_list_ascii]. rewrite plain_cons, digit36_plain. by cbn.
Qed.

Lemma unescape_plain s :
  plain s = true -> unescape s ≫= utf8_decode = Some s.
Proof.
  induction s as [|c s IH]; [done|]. rewrite plain_cons.
  intros [Hc Hs]%andb_true_iff. specialize (IH Hs).
  unfold special in Hc. apply negb_true_iff, orb_false_elim in Hc as [Hc _].
  cbn [unescape]. rewrite Hc.
  destruct (unescape s) as [l|]; [|done]. cbn in *. by rewrite IH.
Qed.

Lemma decode_plain s : plain s = true -> decodeURIComponent s = Some s.
Proof. apply unescape_plain. Qed.

Lemma startsWith_app p s : Str.startsWith p (p +:+ s) = true.
Proof.
  induction p as [|c p IH]; [done|]. rewrite append_cons. cbn.
  by rewrite Ascii.eqb_refl.
Qed.

Lemma drop_app p s : Str.drop (String.length p) (p +:+ s) = s.
Proof. induction p as [|c p IH]; [by destruct s|]. by rewrite append_cons. Qed.

Lemma match_param_app p s :
  s <> "" -> plain s = true -> Str.match_param p (p +:+ s) = Some s.
Proof.
  intros Hne Hs. unfold Str.match_param.
  rewrite startsWith_app, drop_app.
  destruct (String.eqb_spec s ""); [done|]. cbn.
  assert (H : Str.existsb Str.is_line_terminator s = false).
  { clear Hne n. induction s as [|c s IH]; [done|]. rewrite plain_cons in Hs.
    apply andb_true_iff in Hs as [Hc Hs'].
    unfold special in Hc. apply negb_true_iff, orb_false_elim in Hc as [_ Hc].
    cbn. rewrite Hc. by apply IH. }
  by rewrite H.
Qed.

End IdFacts.

(** ** Creating a resume and fetching it *)

Lemma upsert_cons u r l :
  upsert u (r :: l)
  = if strict_eq (id_of r) (u !! "_id") then VObj u :: l else r :: upsert u l.
Proof.
  unfold upsert. cbn [find_index].
  destruct (strict_eq (id_of r) (u !! "_id")); [done|].
  by destruct (find_index (u !! "_id") l).
Qed.

Lemma find_upsert u l :
  strict_eq (u !! "_id") (u !! "_id") = true ->
  find_resume (u !! "_id") (upsert u l) = Some (VObj u).
Proof.
  intros Hu. induction l as [|r l IH].
  - unfold upsert, find_resume. cbn. unfold id_of. cbn. by rewrite Hu.
  - rewrite upsert_cons.
    destruct (strict_eq (id_of r) (u !! "_id")) eqn:E;
      unfold find_resume; cbn [List.find].
    + unfold id_of at 1. cbn [own_props]. by rewrite Hu.
    + by rewrite E.
Qed.

Lemma no_null_upsert u l : no_null l = true -> no_null (upsert u l) = true.
Proof.
  induction l as [|r l IH]; [done|]. rewrite upsert_cons. cbn.
  intros [Hr Hl]%andb_true_iff.
  destruct (strict_eq (id_of r) (u !! "_id")); cbn; [done|].
  rewrite Hr. by apply IH.
Qed.

Section Create.
Variable clock : nat -> Z.
Variable random : nat -> list nat.

Lemma makeId_run prefix w :
  makeId clock random prefix w
  = (Return (id_at clock random prefix (tick w)), {| ls := ls w; tick := S (S (tick w)) |}).
Proof. reflexivity. Qed.

Lemma id_at_plain n : plain (id_at clock random "resume" n) = true /\ id_at clock random "resume" n <> "".
Proof.
  split; [|done]. unfold id_at.
  repeat apply IdFacts.plain_app; try done.
  - apply IdFacts.toString36_plain.
  - apply IdFacts.fraction36_plain.
Qed.

Lemma handleRequest_create b w :
  handleRequest clock random "POST" (Some "/api/resumes/create") b w
  = create_route clock random b (set_ls seed w).
Proof.
  unfold handleRequest. rewrite (bind_run _ _ _ _ _ (ensureSeed_run w)).
  reflexivity.
Qed.

Lemma handleRequest_get (clock' : nat -> Z) (random' : nat -> list nat) id w :
  id <> "" -> plain id = true ->
  handleRequest clock' random' "GET" (Some ("/api/resumes/get/" +:+ id)) NoBody w
  = get_route id (set_ls seed w).
Proof.
  intros Hne Hid. unfold handleRequest.
  rewrite (bind_run _ _ _ _ _ (ensureSeed_run w)).
  change (normalizeUrl (Some ("/api/resumes/get/" +:+ id)))
    with ("/api/resumes/get/" +:+ id).
  cbn zeta.
  change (String.eqb "GET" "GET") with true.
  change (String.eqb "GET" "POST") with false.
  change (String.eqb ("/api/resumes/get/" +:+ id) "/api/users/data") with false.
  change (String.eqb ("/api/resumes/get/" +:+ id) "/api/users/resumes") with false.
  cbn [andb].
  rewrite IdFacts.match_param_app by done.
  reflexivity.
Qed.

Lemma create_route_run b w l :
  collection (ls w) = VArr l -> no_null l = true ->
  let n := tick w in
  let resume :=
    new_resume (id_at clock random "resume" n)
      (to_string (or_else (body_prop b "title") (VStr "Untitled Resume"))) ""
      (Platform.toISOString (clock (S (S n))))
      (Platform.toISOString (clock (S (S (S n))))) in
  handleRequest clock random "POST" (Some "/api/resumes/create") b w
  = (Return (obj [("resume", VObj resume); ("message", VStr "Resume created")]),
     {| ls := <[LS_KEYS.resumes := Json (VArr (upsert resume l))]> (seed (ls w));
        tick := S (S (S (S n))) |}).
Proof.
  intros Hc Hl n resume. rewrite handleRequest_create.
  unfold create_route. cbn zeta.
  rewrite (bind_run _ _ _ _ _ (makeId_run _ _)).
  rewrite (bind_run _ _ _ _ _ (nowIso_run _ _)).
  rewrite (bind_run _ _ _ _ _ (nowIso_run _ _)).
  cbn [ls tick set_ls]. fold n. fold resume.
  unfold bind at 1.
  rewrite (upsertResume_run resume _ l);
    [|cbn; by rewrite collection_seed|done].
  unfold ret, set_ls. cbn [ls tick]. by rewrite seed_idempotent.
Qed.

Lemma get_route_found id w l r :
  plain id = true ->
  collection (ls w) = VArr l -> no_null l = true ->
  find_resume (Some (VStr id)) l = Some r ->
  get_route id w = (Return (obj [("resume", r)]), set_ls seed w).
Proof.
  intros Hid Hc Hl Hf. unfold get_route, decode_param.
  rewrite IdFacts.decode_plain by done. unfold bind at 1, ret at 1.
  destruct (find_resume_some _ _ _ Hf) as [Hm _].
  pose proof (found_truthy _ _ Hm) as Ht.
  assert (Hfound : or_else (find_resume (Some (VStr id)) l) VNull = r)
    by (rewrite Hf; cbn; by rewrite Ht).
  rewrite (bind_run _ _ _ _ _ (findResume_run _ _ _ Hc Hl)).
  by rewrite Hfound, Ht.
Qed.

Lemma new_resume_lookups id title summary createdAt updatedAt :
  let r := new_resume id title summary createdAt updatedAt in
  r !! "_id" = Some (VStr id) /\ r !! "title" = Some (VStr title)
  /\ r !! "public" = Some (VBool false)
  /\ r !! "createdAt" = Some (VStr createdAt)
  /\ r !! "updatedAt" = Some (VStr updatedAt).
Proof. repeat split; reflexivity. Qed.

(** C2, amended.  On a collection without null entries, creating a resume
    with a title and fetching it by the id that was answered gives the
    resume back, with that title and not public; its [createdAt] and
    [updatedAt] are two successive readings of the clock, so they are equal
    exactly when the clock did not advance between the two. *)
Theorem create_then_get b w l :
  body_prop b "title" = Some (VStr "My CV") ->
  collection (ls w) = VArr l -> no_null l = true ->
  let t1 := clock (S (S (tick w))) in
  let t2 := clock (S (S (S (tick w)))) in
  exists resume id w1,
    post_create clock random b w
    = (Return (obj [("resume", VObj resume); ("message", VStr "Resume created")]), w1)
    /\ resume !! "_id" = Some (VStr id)
    /\ (forall clock' random',
        get_resume clock' random' id w1
        = (Return (obj [("resume", VObj resume)]), w1))
    /\ resume !! "title" = Some (VStr "My CV")
    /\ resume !! "public" = Some (VBool false)
    /\ resume !! "createdAt" = Some (VStr (Platform.toISOString t1))
    /\ resume !! "updatedAt" = Some (VStr (Platform.toISOString t2))
    /\ (t1 = t2 -> resume !! "createdAt" = resume !! "updatedAt")
    /\ (Platform.min_iso_time <= t1 <= Platform.max_iso_time ->
        Platform.min_iso_time <= t2 <= Platform.max_iso_time ->
        resume !! "createdAt" = resume !! "updatedAt" -> t1 = t2).
Proof.
  intros Hb Hc Hl t1 t2.
  pose proof (create_route_run b w l Hc Hl) as Hrun. cbn zeta in Hrun.
  rewrite Hb in Hrun. cbn [or_else truthy String.eqb Ascii.eqb Bool.eqb negb to_string] in Hrun.
  fold t1 t2 in Hrun.
  set (id := id_at clock random "resume" (tick w)) in *.
  set (resume := new_resume id "My CV" "" (Platform.toISOString t1)
                   (Platform.toISOString t2)) in *.
  destruct (new_resume_lookups id "My CV" "" (Platform.toISOString t1)
              (Platform.toISOString t2)) as (Hid & Htitle & Hpub & Hc1 & Hc2).
  fold resume in Hid, Htitle, Hpub, Hc1, Hc2.
  destruct (id_at_plain (tick w)) as [Hplain Hne]. fold id in Hplain, Hne.
  eexists resume, id, _. split; [exact Hrun|].
  split; [done|]. split; [|split; [done|split; [done|split; [done|split; [done|split]]]]].
  - intros clock' random'. unfold get_resume. rewrite handleRequest_get by done.
    assert (Hseed : set_ls seed
              {| ls := <[LS_KEYS.resumes:=Json (VArr (upsert resume l))]> (seed (ls w));
                 tick := S (S (S (S (tick w)))) |}
            = {| ls := <[LS_KEYS.resumes:=Json (VArr (upsert resume l))]> (seed (ls w));
                 tick := S (S (S (S (tick w)))) |}).
    { unfold set_ls. cbn [ls tick]. by rewrite seed_insert_resumes. }
    rewrite Hseed.
    rewrite (get_route_found id _ (upsert resume l) (VObj resume)); try done.
    + by rewrite Hseed.
    + cbn [ls]. by apply collection_insert.
    + by apply no_null_upsert.
    + rewrite <- Hid. apply find_upsert. rewrite Hid. cbn. apply String.eqb_refl.
  - intros Ht. by rewrite Hc1, Hc2, Ht.
  - intros H1 H2. rewrite Hc1, Hc2. intros [= Heq].
    apply (f_equal Platform.date_parse) in Heq.
    rewrite !DateFacts.date_roundtrip in Heq by done. by injection Heq.
Qed.

End Create.

(** ** Sorting by recency *)

Lemma by_updatedAt_desc_run a b :
  timed [a; b] = true ->
  by_updatedAt_desc a b = Return (Some (recency b - recency a)).
Proof.
  cbn. rewrite andb_true_r.
  intros [[Ha [ta Hta]%bool_decide_eq_true]%andb_true_iff
          [Hb [tb Htb]%bool_decide_eq_true]%andb_true_iff]%andb_true_iff.
  unfold by_updatedAt_desc, recency.
  replace (get_prop b "updatedAt") with (Return (own_props b !! "updatedAt"))
    by (by destruct b).
  replace (get_prop a "updatedAt") with (Return (own_props a !! "updatedAt"))
    by (by destruct a).
  unfold updated_time in *. cbn. by rewrite Hta, Htb.
Qed.

Lemma timed_cons x l : timed (x :: l) = timed [x] && timed l.
Proof. cbn. by rewrite andb_true_r. Qed.

Lemma timed_insert x l : timed (insert_desc x l) = timed (x :: l).
Proof.
  induction l as [|y l IH]; [done|]. cbn [insert_desc].
  destruct (recency x <? recency y); [|done].
  rewrite (timed_cons y (insert_desc x l)), IH, (timed_cons x (y :: l)),
    (timed_cons y l), (timed_cons x l).
  destruct (timed [x]), (timed [y]); done.
Qed.

Lemma sort_insert_run x l :
  timed (x :: l) = true ->
  sort_insert by_updatedAt_desc x l = Return (insert_desc x l).
Proof.
  induction l as [|y l IH]; [done|]. intros H.
  rewrite timed_cons, (timed_cons y) in H.
  apply andb_true_iff in H as [Hx [Hy Hl]%andb_true_iff].
  cbn [sort_insert insert_desc].
  rewrite by_updatedAt_desc_run
    by (by rewrite timed_cons, Hx, Hy).
  cbn [mbind outcome_bind goes_after].
  replace (0 <? recency y - recency x) with (recency x <? recency y) by lia.
  destruct (recency x <? recency y); [|done].
  rewrite IH; [done|]. by rewrite timed_cons, Hx, Hl.
Qed.

Lemma timed_sort l : timed (sort_desc l) = timed l.
Proof.
  induction l as [|x l IH]; [done|]. cbn [sort_desc foldr].
  fold (sort_desc l). by rewrite timed_insert, timed_cons, IH, <- timed_cons.
Qed.

Lemma js_sort_run l :
  timed l = true -> js_sort by_updatedAt_desc l = Return (sort_desc l).
Proof.
  induction l as [|x l IH]; [done|]. intros H.
  rewrite timed_cons in H. apply andb_true_iff in H as [Hx Hl].
  cbn [js_sort]. rewrite IH by done. cbn [mbind outcome_bind].
  apply sort_insert_run. by rewrite timed_cons, Hx, timed_sort.
Qed.

Lemma insert_desc_perm x l : insert_desc x l ≡ₚ x :: l.
Proof.
  induction l as [|y l IH]; [done|]. cbn [insert_desc].
  destruct (recency x <? recency y); [|done].
  rewrite IH. apply Permutation_swap.
Qed.

Lemma sort_desc_perm l : sort_desc l ≡ₚ l.
Proof.
  induction l as [|x l IH]; [done|]. cbn [sort_desc foldr]. fold (sort_desc l).
  by rewrite insert_desc_perm, IH.
Qed.

Lemma insert_desc_sorted x l :
  StronglySorted newer_first l -> StronglySorted newer_first (insert_desc x l).
Proof.
  induction 1 as [|y l Hl IH Hy]; [by repeat constructor|].
  cbn [insert_desc]. destruct (recency x <? recency y) eqn:E.
  - constructor; [done|]. rewrite insert_desc_perm.
    constructor; [unfold newer_first; lia|done].
  - constructor; [by constructor|].
    constructor; [unfold newer_first; lia|].
    eapply Forall_impl; [exact Hy|]. unfold newer_first. intros; lia.
Qed.

Lemma sort_desc_sorted l : StronglySorted newer_first (sort_desc l).
Proof.
  induction l as [|x l IH]; [constructor|]. by apply insert_desc_sorted.
Qed.



Section List.
Variable clock : nat -> Z.
Variable random : nat -> list nat.

Lemma get_resumes_run w l :
  collection (ls w) = VArr l -> timed l = true ->
  get_resumes clock random w = (Return (obj [("resumes", VArr (sort_desc l))]), set_ls seed w).
Proof.
  intros Hc Hl. unfold get_resumes, handleRequest.
  rewrite (bind_run _ _ _ _ _ (ensureSeed_run w)).
  change (normalizeUrl (Some "/api/users/resumes")) with "/api/users/resumes".
  cbn zeta.
  change (String.eqb "GET" "GET" && String.eqb "/api/users/resumes" "/api/users/data")
    with false.
  change (String.eqb "GET" "GET" && String.eqb "/api/users/resumes" "/api/users/resumes")
    with true.
  cbn iota. unfold users_resumes_route.
  rewrite (bind_run _ _ _ _ _ (getResumes_run _)).
  cbn [set_ls ls]. rewrite collection_seed, Hc.
  unfold bind, lift, ret. cbn [array_sort]. rewrite js_sort_run by done.
  cbn. unfold set_ls; cbn. by rewrite seed_idempotent.
Qed.


End List.

(** ** Facts on the string functions *)

Module StrFacts.
Import Str.

Lemma trimStart_cases s : trimStart s = "" \/ starts_nonws (trimStart s) = true.
Proof.
  induction s as [|c s IH]; [by left|]. cbn [trimStart].
  destruct (is_ws c) eqn:E; [done|]. right. cbn. by rewrite E.
Qed.

Lemma trimEnd_starts s : starts_nonws s = true -> starts_nonws (trimEnd s) = true.
Proof.
  destruct s as [|c s]; [done|]. cbn [starts_nonws trimEnd]. intros Hc.
  destruct (trimEnd s); [|done]. apply negb_true_iff in Hc. by rewrite Hc; cbn; rewrite Hc.
Qed.

Lemma trimStart_id s : starts_nonws s = true -> trimStart s = s.
Proof.
  destruct s as [|c s]; [done|]. cbn. intros Hc%negb_true_iff. by rewrite Hc.
Qed.

Lemma trim_cases s : trim s = "" \/ starts_nonws (trim s) = true.
Proof.
  unfold trim. destruct (trimStart_cases s) as [->|H]; [by left|].
  right. by apply trimEnd_starts.
Qed.

Lemma collapse_starts s : starts_nonws s = true -> starts_nonws (collapse_ws s) = true.
Proof.
  destruct s as [|c s]; [done|]. unfold collapse_ws. cbn.
  intros Hc. apply negb_true_iff in Hc as Hc'. rewrite Hc'. cbn. by rewrite Hc'.
Qed.

Lemma starts_nonempty s : starts_nonws s = true -> s <> "".
Proof. by destruct s. Qed.

Lemma cleaned_nonempty s :
  trim s <> "" -> trim (collapse_ws (trim s)) <> "".
Proof.
  intros Hne. destruct (trim_cases s) as [|H]; [done|].
  apply starts_nonempty. unfold trim at 1.
  apply trimEnd_starts. rewrite trimStart_id; by apply collapse_starts.
Qed.

Lemma after_first_quote_app a r :
  count_quotes a = O -> after_first_quote (a +:+ String dquote r) = Some r.
Proof.
  induction a as [|c a IH]; [done|]. rewrite append_cons. cbn.
  destruct (Ascii.eqb c dquote); [done|]. exact IH.
Qed.

Lemma before_last_quote_none s : count_quotes s = O -> before_last_quote s = None.
Proof.
  induction s as [|c s IH]; [done|]. cbn.
  destruct (Ascii.eqb c dquote); [done|]. intros H. by rewrite IH.
Qed.

Lemma before_last_quote_app m b :
  count_quotes b = O -> before_last_quote (m +:+ String dquote b) = Some m.
Proof.
  intros Hb. induction m as [|c m IH].
  - rewrite append_nil. cbn [before_last_quote].
    by rewrite before_last_quote_none.
  - rewrite append_cons. cbn [before_last_quote]. by rewrite IH.
Qed.

Lemma after_first_quote_count s :
  match after_first_quote s with
  | Some r => count_quotes s = S (count_quotes r)
  | None => count_quotes s = O
  end.
Proof.
  induction s as [|c s IH]; [done|]. cbn.
  destruct (Ascii.eqb c dquote); [done|]. exact IH.
Qed.

Lemma match_quoted_between a m b :
  count_quotes a = O -> count_quotes b = O ->
  match_quoted (a +:+ q +:+ m +:+ q +:+ b) = Some m.
Proof.
  intros Ha Hb. unfold match_quoted, q.
  rewrite !append_cons, !append_nil.
  rewrite after_first_quote_app by done. cbn.
  by apply before_last_quote_app.
Qed.

Lemma match_quoted_few s : (count_quotes s < 2)%nat -> match_quoted s = None.
Proof.
  intros H. unfold match_quoted.
  pose proof (after_first_quote_count s) as Hc.
  destruct (after_first_quote s) as [r|]; [|done]. cbn.
  apply before_last_quote_none. lia.
Qed.

Lemma before_first_quote_none s : count_quotes s = O -> before_first_quote s = None.
Proof.
  induction s as [|c s IH]; [done|]. cbn.
  destruct (Ascii.eqb c dquote); [done|]. intros H. by rewrite IH.
Qed.

Lemma before_quote_one s :
  (count_quotes s <= 1)%nat -> before_last_quote s = before_first_quote s.
Proof.
  induction s as [|c s IH]; [done|]. cbn.
  destruct (Ascii.eqb c dquote) eqn:E; cbn; intros H.
  - by rewrite before_last_quote_none by lia.
  - rewrite IH by done. by destruct (before_first_quote s).
Qed.

Lemma first_quoted_upto2 s :
  (count_quotes s <= 2)%nat -> first_quoted s = match_quoted s.
Proof.
  intros H. unfold first_quoted, match_quoted.
  pose proof (after_first_quote_count s) as Hc.
  destruct (after_first_quote s) as [r|]; [|done]. cbn.
  symmetry. apply before_quote_one. lia.
Qed.

End StrFacts.

(** ** Collapsing white space: the words are kept, the runs between them
    become one space *)

Module WsFacts.
Import Str.

Lemma words_trimStart s : words (trimStart s) = words s.
Proof.
  induction s as [|c s IH]; [done|]. cbn [trimStart words].
  destruct (is_ws c) eqn:E; [done|]. cbn [words]. by rewrite E.
Qed.

Lemma starts_trimEnd s : starts_nonws (trimEnd s) = starts_nonws s.
Proof.
  destruct s as [|c s]; [done|]. cbn [trimEnd starts_nonws].
  destruct (trimEnd s); [|done]. by destruct (is_ws c) eqn:E; cbn; rewrite ?E.
Qed.

Lemma trimEnd_empty_words s : trimEnd s = "" <-> words s = [].
Proof.
  induction s as [|c s IH]; [done|]. cbn [trimEnd words].
  destruct (is_ws c) eqn:E.
  - rewrite <- IH. by destruct (trimEnd s).
  - split.
    + by destruct (trimEnd s).
    + destruct (starts_nonws s); [by destruct (words s)|done].
Qed.

Lemma trimEnd_idem s : trimEnd (trimEnd s) = trimEnd s.
Proof.
  induction s as [|c s IH]; [done|]. cbn [trimEnd].
  destruct (trimEnd s) as [|c' t] eqn:Et.
  - destruct (is_ws c) eqn:E; [done|]. cbn. by rewrite E.
  - cbn [trimEnd] in *. by rewrite IH.
Qed.

Lemma collapse_empty b s : collapse_from b s = "" -> trimEnd s = "".
Proof.
  revert b. induction s as [|c s IH]; intros b; [done|]. cbn [collapse_from trimEnd].
  destruct (is_ws c); [|done]. destruct b; [|done].
  intros H. by rewrite (IH _ H).
Qed.

Lemma trimEnd_collapse b s :
  trimEnd s = s -> trimEnd (collapse_from b s) = collapse_from b s.
Proof.
  revert b. induction s as [|c s IH]; intros b; [done|].
  cbn [trimEnd]. intros H.
  assert (Hs : trimEnd s = s /\ (s = "" -> is_ws c = false)).
  { destruct (trimEnd s) as [|c' t] eqn:Et.
    - destruct (is_ws c); [done|]. by injection H as <-.
    - by injection H as <-. }
  destruct Hs as [Hs Hc].
  assert (Hne : forall b', s <> "" -> collapse_from b' s <> "").
  { intros b' Hn Hc'. apply collapse_empty in Hc'. by rewrite Hs in Hc'. }
  cbn [collapse_from]. destruct (is_ws c) eqn:E.
  - assert (s <> "") by (intros ->; by specialize (Hc eq_refl)).
    destruct b.
    + by apply IH.
    + cbn [trimEnd]. rewrite IH by done.
      pose proof (Hne true ltac:(done)). by destruct (collapse_from true s).
  - cbn [trimEnd]. rewrite IH by done.
    destruct (collapse_from false s) eqn:Ec; [|done]. by rewrite E.
Qed.

Lemma collapse_false_true s :
  collapse_from false s
  = if starts_nonws s then collapse_from true s
    else match s with "" => "" | _ => String " " (collapse_from true s) end.
Proof.
  destruct s as [|c s]; [done|]. cbn. by destruct (is_ws c).
Qed.

Lemma unwords_cons c w ws : unwords (String c w :: ws) = String c (unwords (w :: ws)).
Proof. by destruct ws. Qed.

Lemma collapse_trimEnd s : collapse_from true (trimEnd s) = unwords (words s).
Proof.
  induction s as [|c s IH]; [done|]. cbn [trimEnd words].
  destruct (is_ws c) eqn:E.
  - destruct (trimEnd s) eqn:Et; [by rewrite <- IH|].
    cbn [collapse_from]. by rewrite E.
  - assert (Hl : collapse_from true (match trimEnd s with
                                     | "" => String c ""
                                     | String _ _ as t => String c t
                                     end)
                 = String c (collapse_from false (trimEnd s))).
    { destruct (trimEnd s); cbn [collapse_from]; by rewrite E. }
    rewrite Hl, collapse_false_true, starts_trimEnd, IH.
    destruct (starts_nonws s).
    + destruct (words s); [done|]. by rewrite unwords_cons.
    + destruct (trimEnd s) eqn:Et.
      * apply trimEnd_empty_words in Et. by rewrite Et.
      * destruct (words s) eqn:Ew; [|done].
        apply trimEnd_empty_words in Ew. by rewrite Ew in Et.
Qed.

Lemma collapse_from_starts b s :
  starts_nonws s = true -> starts_nonws (collapse_from b s) = true.
Proof.
  destruct s as [|c s]; [done|]. cbn.
  intros Hc. apply negb_true_iff in Hc as Hc'. rewrite Hc'. cbn. by rewrite Hc'.
Qed.

(** What [trim], [replace] and [trim] of the stub give of a text: its
    words, with one space between two. *)
Lemma cleaned_single_spaced x :
  trim (collapse_ws (trim x)) = single_spaced x.
Proof.
  unfold single_spaced. rewrite <- words_trimStart, <- collapse_trimEnd.
  unfold trim at 2. set (base := trimEnd (trimStart x)).
  assert (Hb : trimEnd base = base) by apply trimEnd_idem.
  unfold collapse_ws. rewrite collapse_false_true.
  destruct (starts_nonws base) eqn:Es.
  - unfold trim.
    rewrite StrFacts.trimStart_id by (by apply collapse_from_starts).
    by apply trimEnd_collapse.
  - assert (base = "") as ->; [|done].
    subst base. rewrite starts_trimEnd in Es.
    destruct (StrFacts.trimStart_cases x) as [->|H]; [done|congruence].
Qed.

Lemma trim_empty_words x : trim x = "" -> words x = [].
Proof.
  unfold trim. intros H%trimEnd_empty_words. by rewrite words_trimStart in H.
Qed.

End WsFacts.

Lemma enhanceText_finish s :
  enhanceText (Some (VStr s)) = Return (finish (default s (Str.match_quoted s))).
Proof.
  unfold enhanceText, finish. cbn zeta.
  set (x := default s (Str.match_quoted s)).
  rewrite WsFacts.cleaned_single_spaced.
  destruct (String.eqb_spec (Str.trim x) "") as [E|E].
  - unfold single_spaced. by rewrite (WsFacts.trim_empty_words _ E).
  - pose proof (StrFacts.cleaned_nonempty _ E) as Hc.
    rewrite WsFacts.cleaned_single_spaced in Hc.
    destruct (String.eqb_spec (single_spaced x) ""); [done|].
    cbn [negb andb]. by destruct (Nat.ltb _ _).
Qed.

(** C5, amended.  For a prompt string, the stub takes the text between the
    first and the last double quote of the prompt when it has two or more
    of them, else the whole prompt; collapses the white space of that text,
    which leaves its words with one space between two and no white space
    at the ends; puts the boilerplate sentence in front of a result that is
    not empty and shorter than 80 characters, and leaves another result as
    it is.  So a text with tabs, line feeds and runs of spaces comes out
    with single spaces, and the empty prompt gives the empty string. *)
Theorem enhance_stub :
  (forall a m b, count_quotes a = O -> count_quotes b = O ->
     enhanceText (Some (VStr (a +:+ q +:+ m +:+ q +:+ b))) = Return (finish m))
  /\ (forall s, (count_quotes s < 2)%nat ->
        enhanceText (Some (VStr s)) = Return (finish s))
  /\ (forall s, (count_quotes s <= 2)%nat ->
        enhanceText (Some (VStr s)) = Return (enhance_as_stated s))
  /\ enhanceText (Some (VStr ("write about " +:+ q +:+ "built 3 apps" +:+ q)))
     = Return "Results-driven professional with a strong focus on impact. built 3 apps"
  /\ enhanceText (Some (VStr spaced_prompt))
     = Return "Results-driven professional with a strong focus on impact. led a team of 5"
  /\ enhanceText (Some (VStr "")) = Return "".
Proof.
  split; [|split; [|split; [|split; [|split]]]].
  - intros a m b Ha Hb. by rewrite enhanceText_finish, StrFacts.match_quoted_between.
  - intros s Hs. by rewrite enhanceText_finish, StrFacts.match_quoted_few.
  - intros s Hs. unfold enhance_as_stated.
    by rewrite enhanceText_finish, StrFacts.first_quoted_upto2.
  - vm_compute. reflexivity.
  - vm_compute. reflexivity.
  - reflexivity.
Qed.

(** C5 at a prompt with a quoted part that has tabs, line feeds and runs of
    spaces, and at a quoted part of 80 characters. *)
Lemma enhance_stub_witness :
  words spaced_prompt = ["led"; "a"; "team"; "of"; "5"]
  /\ enhanceText (Some (VStr ("say " +:+ q +:+ spaced_prompt +:+ q +:+ " now")))
     = Return (boilerplate +:+ "led a team of 5")
  /\ enhanceText (Some (VStr ("say " +:+ q +:+ long_prompt +:+ q +:+ " now")))
     = Return (single_spaced long_prompt)
  /\ String.length (single_spaced long_prompt) = 80%nat.
Proof.
  split; [vm_compute; reflexivity|].
  split; [|split].
  - rewrite (proj1 enhance_stub "say " spaced_prompt " now") by reflexivity.
    vm_compute. reflexivity.
  - rewrite (proj1 enhance_stub "say " long_prompt " now") by reflexivity.
    vm_compute. reflexivity.
  - vm_compute. reflexivity.
Defined.

Lemma enhance_two_quoted_parts :
  let prompt := q +:+ "a" +:+ q +:+ " " +:+ q +:+ "b" +:+ q in
  first_quoted prompt = Some "a"
  /\ enhance_as_stated prompt = boilerplate +:+ "a"
  /\ enhanceText (Some (VStr prompt))
     = Return (boilerplate +:+ "a" +:+ q +:+ " " +:+ q +:+ "b")
  /\ enhanceText (Some (VStr prompt)) <> Return (enhance_as_stated prompt).
Proof. vm_compute. repeat split; discriminate. Qed.

(** ** The claims at sample inputs *)

(** C1 at the example of the specification: the resume with
    [personal_info = {city}] updated with [{country}] has both, and a later
    [updatedAt]. *)
Lemma partial_update_merge_witness :
  exists next info w',
    put_update ticking_clock sample_random (update_body (VStr "r1") country_data)
      sample_world
    = (Return (obj [("resume", VObj next); ("message", VStr "Resume updated")]), w')
    /\ next !! "title" = Some (VStr "Old title")
    /\ next !! "personal_info" = Some (VObj info)
    /\ info !! "city" = Some (VStr "X")
    /\ info !! "country" = Some (VStr "Y")
    /\ updated_time sample_resume = Some 1699999999000
    /\ updated_time (VObj next) = Some 1700000000000.
Proof.
  destruct (partial_update_merge ticking_clock sample_random
              (update_body (VStr "r1") country_data) sample_world
              (VStr "r1") country_data None [sample_resume] sample_resume)
    as (next & info & w' & Hrun & _ & Hkeep & Hinfo & Hmerge & _ & _ & Htime).
  - vm_compute; reflexivity.
  - reflexivity.
  - vm_compute; reflexivity.
  - reflexivity.
  - vm_compute; reflexivity.
  - discriminate.
  - exists next, info, w'. split; [exact Hrun|].
    split; [rewrite Hkeep by discriminate; vm_compute; reflexivity|].
    split; [exact Hinfo|].
    split; [rewrite Hmerge by discriminate; vm_compute; reflexivity|].
    split; [rewrite Hmerge by discriminate; vm_compute; reflexivity|].
    split; [vm_compute; reflexivity|].
    apply Htime. vm_compute. split; discriminate.
Defined.

(** C1 as stated fails when the clock has not advanced since the resume
    was created: the update goes through and [updatedAt] is what it was. *)
Lemma update_same_millisecond :
  let created := post_create frozen_clock sample_random NoBody fresh in
  let id := default VNull (answer_field created.1 "_id") in
  let updated :=
    put_update frozen_clock sample_random
      (update_body id (obj [("title", VStr "CV")])) created.2 in
  answer_field updated.1 "title" = Some (VStr "CV")
  /\ (answer_resume created.1 ≫= updated_time) = Some 1700000000000
  /\ (answer_resume updated.1 ≫= updated_time) = Some 1700000000000
  /\ answer_field updated.1 "updatedAt" = answer_field created.1 "updatedAt".
Proof. vm_compute. repeat split; reflexivity. Qed.

(** C2 at the example of the specification. *)
Lemma create_then_get_witness :
  exists resume id w1,
    post_create frozen_clock sample_random
      (JsonBody (obj [("title", VStr "My CV")])) fresh
    = (Return (obj [("resume", VObj resume); ("message", VStr "Resume created")]), w1)
    /\ resume !! "_id" = Some (VStr id)
    /\ get_resume frozen_clock sample_random id w1
       = (Return (obj [("resume", VObj resume)]), w1)
    /\ resume !! "title" = Some (VStr "My CV")
    /\ resume !! "public" = Some (VBool false)
    /\ resume !! "createdAt" = resume !! "updatedAt".
Proof.
  destruct (create_then_get frozen_clock sample_random
              (JsonBody (obj [("title", VStr "My CV")])) fresh [])
    as (resume & id & w1 & Hrun & Hid & Hget & Htitle & Hpub & _ & _ & Heq & _).
  - vm_compute; reflexivity.
  - vm_compute; reflexivity.
  - reflexivity.
  - exists resume, id, w1.
    split; [exact Hrun|]. split; [exact Hid|]. split; [apply Hget|].
    split; [exact Htitle|]. split; [exact Hpub|]. apply Heq. reflexivity.
Defined.

(** C2 as stated fails when the clock advances between the two readings
    that creation takes: the resume fetched is the one created, and its
    [createdAt] and [updatedAt] differ. *)
Lemma create_across_a_tick :
  let created :=
    post_create ticking_clock sample_random
      (JsonBody (obj [("title", VStr "My CV")])) fresh in
  let id := to_string (default VNull (answer_field created.1 "_id")) in
  let fetched := get_resume ticking_clock sample_random id created.2 in
  answer_resume fetched.1 = answer_resume created.1
  /\ answer_field fetched.1 "title" = Some (VStr "My CV")
  /\ answer_field fetched.1 "createdAt" = Some (VStr "2023-11-14T22:13:20.002Z")
  /\ answer_field fetched.1 "updatedAt" = Some (VStr "2023-11-14T22:13:20.003Z")
  /\ answer_field fetched.1 "createdAt" <> answer_field fetched.1 "updatedAt".
Proof. vm_compute. repeat split; try reflexivity. discriminate. Qed.

(** C3 at a sample update that carries no id, and at one that carries the
    id of another stored resume: the first resume stays as it was, and the
    second one gives way to the answered resume, which has its id. *)
Lemma update_id_witness :
  (exists next w',
     put_update ticking_clock sample_random (update_body (VStr "r1") country_data)
       sample_world
     = (Return (obj [("resume", VObj next); ("message", VStr "Resume updated")]), w')
     /\ next !! "_id" = Some (VStr "r1")
     /\ collection (ls w') = VArr [VObj next])
  /\ (exists next w',
        put_update ticking_clock sample_random
          (update_body (VStr "r1") (obj [("_id", VStr "r2")])) two_resumes
        = (Return (obj [("resume", VObj next); ("message", VStr "Resume updated")]), w')
        /\ next !! "_id" = Some (VStr "r2")
        /\ id_of second_resume = Some (VStr "r2")
        /\ collection (ls w') = VArr [sample_resume; VObj next]).
Proof.
  split.
  - destruct (update_id ticking_clock sample_random
                (update_body (VStr "r1") country_data) sample_world
                (VStr "r1") country_data None [sample_resume] sample_resume)
      as (next & w' & Hrun & Hc & _ & Hsame & _ & _ & _ & _ & Hplace & _).
    + vm_compute; reflexivity.
    + reflexivity.
    + vm_compute; reflexivity.
    + reflexivity.
    + vm_compute; reflexivity.
    + discriminate.
    + assert (Hid : next !! "_id" = Some (VStr "r1"))
        by (rewrite Hsame; vm_compute; reflexivity).
      exists next, w'. split; [exact Hrun|]. split; [exact Hid|].
      rewrite Hc. destruct (Hplace Hid) as (i & Hi & ->).
      destruct i as [|i]; [reflexivity|]. destruct i; discriminate Hi.
  - destruct (update_id ticking_clock sample_random
                (update_body (VStr "r1") (obj [("_id", VStr "r2")])) two_resumes
                (VStr "r1") (obj [("_id", VStr "r2")]) None
                [sample_resume; second_resume] sample_resume)
      as (next & w' & Hrun & Hc & _ & _ & Hnew & _ & _ & Hshape & _ & _).
    + vm_compute; reflexivity.
    + reflexivity.
    + vm_compute; reflexivity.
    + reflexivity.
    + vm_compute; reflexivity.
    + discriminate.
    + assert (Hid : next !! "_id" = Some (VStr "r2"))
        by (apply Hnew; vm_compute; reflexivity).
      exists next, w'. split; [exact Hrun|]. split; [exact Hid|].
      split; [reflexivity|]. rewrite Hc, Hid in *.
      destruct Hshape as [(i & r & Hi & _ & _ & ->)|[Hnone _]].
      * vm_compute in Hi. injection Hi as <-. reflexivity.
      * vm_compute in Hnone. discriminate Hnone.
Defined.

(** C3 as stated fails for data that carries an id: the resume answered
    has that id, not the one it had, and is stored next to the old one. *)
Lemma update_overrides_id :
  let updated :=
    put_update ticking_clock sample_random
      (update_body (VStr "r1") (obj [("_id", VStr "r2")])) sample_world in
  id_of sample_resume = Some (VStr "r1")
  /\ answer_field updated.1 "_id" = Some (VStr "r2")
  /\ map id_of (entries (collection (ls updated.2)))
     = [Some (VStr "r1"); Some (VStr "r2")].
Proof. vm_compute. repeat split; reflexivity. Qed.



(** C7 at sample bodies: no [resumeId], an unknown one, a known one, and a
    multipart body whose data is no JSON. *)
Lemma update_outcomes_witness :
  (exists e w', put_update ticking_clock sample_random NoBody sample_world
                = (Throw (Rejected e), w') /\ status (response e) = 400)
  /\ (exists e w', put_update ticking_clock sample_random
                     (update_body (VStr "r9") country_data) sample_world
                   = (Throw (Rejected e), w') /\ status (response e) = 404)
  /\ (exists next w', put_update ticking_clock sample_random
                        (update_body (VStr "r1") country_data) sample_world
                      = (Return (obj [("resume", VObj next);
                                      ("message", VStr "Resume updated")]), w'))
  /\ put_update ticking_clock sample_random
       (FormBody {| fd_resumeId := Some "r1"; fd_resumeData := Some (Raw "{");
                    fd_image := None |}) sample_world
     = (Throw SyntaxError, set_ls seed sample_world).
Proof.
  destruct (update_outcomes ticking_clock sample_random) as (Hread & Hbad & _).
  split; [|split; [|split]].
  - apply (Hread NoBody sample_world None (VObj ∅) None [sample_resume]);
      reflexivity.
  - destruct (Hread (update_body (VStr "r9") country_data) sample_world
                (Some (VStr "r9")) country_data None [sample_resume])
      as (_ & H404 & _); try (vm_compute; reflexivity).
    destruct H404 as (e & w' & Hrun & Hst & _); try reflexivity.
    by exists e, w'.
  - destruct (Hread (update_body (VStr "r1") country_data) sample_world
                (Some (VStr "r1")) country_data None [sample_resume])
      as (_ & _ & Hok); try (vm_compute; reflexivity).
    destruct (Hok eq_refl ltac:(discriminate) sample_resume eq_refl)
      as (next & w' & Hrun & _).
    by exists next, w'.
  - apply Hbad. eexists _, "{". split; [reflexivity|]. split; [reflexivity|].
    discriminate.
Defined.

(** C7 as stated fails in both directions: a body that carries an empty
    [resumeId] is rejected with status 400; and a FormData without
    [resumeId] whose [resumeData] part is no JSON fails with the parser's
    exception, which has no status. *)
Lemma update_400_not_iff_missing :
  let empty_id := JsonBody (obj [("resumeId", VStr ""); ("resumeData", VObj ∅)]) in
  let bad_form :=
    FormBody {| fd_resumeId := None; fd_resumeData := Some (Raw "{");
                fd_image := None |} in
  body_prop empty_id "resumeId" = Some (VStr "")
  /\ (put_update ticking_clock sample_random empty_id sample_world).1
     = Throw (Rejected (axiosLikeError "resumeId is required" (Some 400)))
  /\ (put_update ticking_clock sample_random bad_form sample_world).1
     = Throw SyntaxError.
Proof. vm_compute. repeat split; reflexivity. Qed.

(** C10 at a sample failure. *)
Lemma failed_update_writes_witness :
  exists e w',
    put_update ticking_clock sample_random NoBody sample_world = (Throw e, w')
    /\ ls w' = seed (ls sample_world)
    /\ collection (ls w') = collection (ls sample_world).
Proof.
  pose (r := put_update ticking_clock sample_random NoBody sample_world).
  pose (e := axiosLikeError "resumeId is required" (Some 400)).
  assert (Hrun : put_update ticking_clock sample_random NoBody sample_world
                 = (Throw (Rejected e), r.2)) by (vm_compute; reflexivity).
  exists (Rejected e), r.2. split; [exact Hrun|].
  destruct (failed_update_writes ticking_clock sample_random NoBody sample_world
              (Rejected e) r.2 Hrun) as (H1 & H2 & _).
  by split.
Defined.

(** C10 as stated fails on a storage that is not seeded: the rejected
    update has written the empty collection (and the user and the token)
    before it found the [resumeId] missing. *)
Lemma failed_update_seeds :
  let rejected := put_update ticking_clock sample_random NoBody fresh in
  rejected.1 = Throw (Rejected (axiosLikeError "resumeId is required" (Some 400)))
  /\ ls fresh !! LS_KEYS.resumes = None
  /\ ls rejected.2 !! LS_KEYS.resumes = Some (Json (VArr [])).
Proof. vm_compute. repeat split; reflexivity. Qed.

(** C8 as stated fails for a slot that is present but unusable: the seed
    step overwrites a collection whose text is no JSON. *)
Lemma seed_overwrites_unreadable :
  let w := {| ls := {[ LS_KEYS.resumes := Raw "{" ]}; tick := 0 |} in
  ls w !! LS_KEYS.resumes = Some (Raw "{")
  /\ ls (run_seed w) !! LS_KEYS.resumes = Some (Json (VArr [])).
Proof. vm_compute. split; reflexivity. Qed.

(** C8 at an empty storage and at a seeded one. *)
Lemma ensureSeed_idempotent_witness :
  ls (run_seed fresh) !! LS_KEYS.user = Some (Json default_user)
  /\ ls (run_seed fresh) !! LS_KEYS.token = Some (Raw "local_token")
  /\ ls (run_seed fresh) !! LS_KEYS.resumes = Some (Json (VArr []))
  /\ ls (run_seed sample_world) !! LS_KEYS.resumes = ls sample_world !! LS_KEYS.resumes
  /\ Nat.iter 3 run_seed (run_seed fresh) = run_seed fresh.
Proof.
  destruct (ensureSeed_idempotent fresh) as (_ & Hu & Ht & Hr & _ & _ & _ & Hn).
  destruct (ensureSeed_idempotent sample_world) as (_ & _ & _ & _ & _ & Hkeep & _).
  split; [exact Hu|]. split; [exact Ht|]. split; [exact Hr|].
  split; [apply (Hkeep (VArr [sample_resume])); vm_compute; reflexivity|apply Hn].
Defined.

(** C9 at an absent key, an empty text, a text that is no JSON and a JSON
    text. *)
Lemma readJson_never_fails_witness :
  let w := {| ls := {[ "a" := Raw ""; "b" := Raw "{"; "c" := Json (VNum 7) ]};
              tick := 0 |} in
  readJson "z" VNull w = (Return VNull, w)
  /\ readJson "a" VNull w = (Return VNull, w)
  /\ readJson "b" (VArr []) w = (Return (VArr []), w)
  /\ readJson "c" VNull w = (Return (VNum 7), w).
Proof.
  intros w.
  destruct (readJson_never_fails "z" VNull w) as (v1 & H1 & E1 & _).
  destruct (readJson_never_fails "a" VNull w) as (v2 & H2 & _ & E2 & _).
  destruct (readJson_never_fails "b" (VArr []) w) as (v3 & H3 & _ & _ & E3).
  rewrite H1, H2, H3, E1, E2, (E3 (Raw "{")) by reflexivity.
  repeat split; reflexivity.
Defined.

(** ** What a request leaves in the storage *)

Lemma seeded_seed s : seeded (seed s).
Proof. apply seed_idempotent. Qed.

Lemma seeded_slots s :
  seeded s ->
  is_Some (stored s LS_KEYS.user)
  /\ text_truthy (s !! LS_KEYS.token) = true
  /\ is_Some (stored s LS_KEYS.resumes).
Proof.
  unfold seeded. intros <-.
  rewrite stored_seed_user, stored_seed_resumes, token_seed. by repeat split.
Qed.

Lemma seeded_insert_resumes s l :
  seeded s -> seeded (<[LS_KEYS.resumes := Json (VArr l)]> s).
Proof.
  unfold seeded. intros Hs. rewrite <- Hs at 1. rewrite seed_insert_resumes by done.
  by rewrite Hs.
Qed.

Lemma seeded_insert_user s u :
  truthy u = true -> seeded s -> seeded (<[LS_KEYS.user := Json u]> s).
Proof.
  unfold seeded. intros Hu Hs. apply map_eq. intros k.
  rewrite seed_lookup.
  assert (Hst : stored (<[LS_KEYS.user:=Json u]> s) LS_KEYS.user = Some u)
    by (unfold stored; rewrite lookup_insert_eq; by rewrite Hu).
  assert (Hsr : stored (<[LS_KEYS.user:=Json u]> s) LS_KEYS.resumes
                = stored s LS_KEYS.resumes)
    by (apply stored_ext; by rewrite lookup_insert_ne).
  rewrite Hst, Hsr, (lookup_insert_ne _ LS_KEYS.user LS_KEYS.token) by done.
  pose proof (seed_lookup s k) as Hk. rewrite Hs in Hk.
  unfold LS_KEYS.user, LS_KEYS.token, LS_KEYS.resumes in *.
  repeat case_decide; subst; simplify_map_eq; done.
Qed.

Lemma seeded_insert_token s t :
  text_truthy (Some t) = true -> seeded s -> seeded (<[LS_KEYS.token := t]> s).
Proof.
  unfold seeded. intros Ht Hs. apply map_eq. intros k.
  rewrite seed_lookup.
  rewrite (stored_ext (<[LS_KEYS.token:=t]> s) s LS_KEYS.user)
    by (by rewrite lookup_insert_ne).
  rewrite (stored_ext (<[LS_KEYS.token:=t]> s) s LS_KEYS.resumes)
    by (by rewrite lookup_insert_ne).
  rewrite lookup_insert_eq, Ht.
  pose proof (seed_lookup s k) as Hk. rewrite Hs in Hk.
  unfold LS_KEYS.user, LS_KEYS.token, LS_KEYS.resumes in *.
  repeat case_decide; subst; simplify_map_eq; done.
Qed.

Lemma silent_keeps {A} (c : M A) : silent c -> keeps_seeded c.
Proof. intros H w Hw. by rewrite (H w Hw). Qed.

Lemma silent_ret {A} (a : A) : silent (ret a).
Proof. by intros w _. Qed.

Lemma silent_throw {A} e : silent (@throw A e).
Proof. by intros w _. Qed.

Lemma silent_lift {A} (o : outcome A) : silent (lift o).
Proof. by intros w _. Qed.

Lemma silent_bind {A B} (c : M A) (k : A -> M B) :
  silent c -> (forall a, silent (k a)) -> silent (bind c k).
Proof.
  intros Hc Hk w Hw. unfold bind. specialize (Hc w Hw).
  destruct (c w) as [[a|e] w1]; cbn in *; [|done].
  subst w1. by apply Hk.
Qed.

Lemma silent_if {A} (b : bool) (c1 c2 : M A) :
  silent c1 -> silent c2 -> silent (if b then c1 else c2).
Proof. by destruct b. Qed.

Lemma keeps_bind {A B} (c : M A) (k : A -> M B) :
  keeps_seeded c -> (forall a, keeps_seeded (k a)) -> keeps_seeded (bind c k).
Proof.
  intros Hc Hk w Hw. unfold bind. specialize (Hc w Hw).
  destruct (c w) as [[a|e] w1]; cbn in *; [|done]. by apply Hk.
Qed.

Lemma keeps_bind_lift {A B} (o : outcome A) (k : A -> M B) :
  (forall a, o = Return a -> keeps_seeded (k a)) -> keeps_seeded (bind (lift o) k).
Proof.
  intros Hk w Hw. unfold bind, lift. destruct o as [a|e]; [|done]. by apply Hk.
Qed.

Lemma keeps_if {A} (b : bool) (c1 c2 : M A) :
  keeps_seeded c1 -> keeps_seeded c2 -> keeps_seeded (if b then c1 else c2).
Proof. by destruct b. Qed.

Lemma silent_readJson key fallback : silent (readJson key fallback).
Proof. intros w _. by rewrite readJson_run. Qed.

Lemma set_ls_seeded w : seeded (ls w) -> set_ls seed w = w.
Proof. destruct w as [s n]. unfold set_ls, seeded. cbn. by intros ->. Qed.

Lemma silent_ensureSeed : silent ensureSeed.
Proof. intros w Hw. rewrite ensureSeed_run. by apply set_ls_seeded. Qed.

Lemma silent_getResumes : silent getResumes.
Proof. intros w Hw. rewrite getResumes_run. by apply set_ls_seeded. Qed.

Lemma silent_findResume id : silent (findResume id).
Proof. intros w Hw. rewrite findResume_world. by apply set_ls_seeded. Qed.

Lemma silent_decode_param p : silent (decode_param p).
Proof. unfold decode_param. destruct (Platform.decodeURIComponent p); by intros w _. Qed.

Lemma keeps_setResumes_array l : keeps_seeded (setResumes (VArr l)).
Proof. intros w Hw. by apply seeded_insert_resumes. Qed.

Lemma keeps_upsertResume u : keeps_seeded (upsertResume u).
Proof.
  unfold upsertResume. apply keeps_bind; [apply silent_keeps, silent_getResumes|].
  intros resumes. apply keeps_bind; [apply silent_keeps, silent_lift|].
  intros idx. destruct resumes; try apply silent_keeps, silent_throw.
  destruct idx; apply keeps_setResumes_array.
Qed.

Lemma silent_users_data : silent users_data_route.
Proof.
  apply silent_bind; [apply silent_readJson|]. intros; apply silent_ret.
Qed.

Lemma silent_users_resumes : silent users_resumes_route.
Proof.
  apply silent_bind; [apply silent_getResumes|]. intros all.
  apply silent_bind; [apply silent_lift|]. intros; apply silent_ret.
Qed.

Lemma silent_get_route p : silent (get_route p).
Proof.
  apply silent_bind; [apply silent_decode_param|]. intros id.
  apply silent_bind; [apply silent_findResume|]. intros r.
  destruct (negb (truthy r)); [apply silent_throw|apply silent_ret].
Qed.

Lemma silent_public_route p : silent (public_route p).
Proof.
  apply silent_bind; [apply silent_decode_param|]. intros id.
  apply silent_bind; [apply silent_findResume|]. intros r.
  destruct (_ || _); [apply silent_throw|apply silent_ret].
Qed.

Lemma silent_enhance_route b : silent (enhance_route b).
Proof.
  apply silent_bind; [apply silent_lift|]. intros; apply silent_ret.
Qed.

Lemma keeps_login_route path b : keeps_seeded (login_route path b).
Proof.
  unfold login_route. cbn zeta.
  apply keeps_bind; [apply silent_keeps, silent_lift|]. intros name.
  apply keeps_bind; [apply silent_keeps, silent_lift|]. intros email.
  apply keeps_bind; [intros w Hw; by apply seeded_insert_user|]. intros _.
  apply keeps_bind; [intros w Hw; by apply seeded_insert_token|]. intros _.
  apply silent_keeps, silent_ret.
Qed.

Lemma keeps_delete_route p : keeps_seeded (delete_route p).
Proof.
  unfold delete_route.
  apply keeps_bind; [apply silent_keeps, silent_decode_param|]. intros id.
  apply keeps_bind; [apply silent_keeps, silent_getResumes|]. intros resumes.
  apply keeps_bind_lift. intros next Hnext.
  apply keeps_bind; [|intros; apply silent_keeps, silent_ret].
  destruct resumes; try done. cbn in Hnext.
  destruct (js_filter _ _); [|done]. injection Hnext as <-.
  apply keeps_setResumes_array.
Qed.

Section Effects.
Variable clock : nat -> Z.
Variable random : nat -> list nat.

Lemma keeps_nowIso : keeps_seeded (nowIso clock).
Proof. by intros w Hw. Qed.

Lemma keeps_makeId prefix : keeps_seeded (makeId clock random prefix).
Proof. by intros w Hw. Qed.

Lemma keeps_create_route b : keeps_seeded (create_route clock random b).
Proof.
  unfold create_route. cbn zeta.
  apply keeps_bind; [apply keeps_makeId|]. intros id.
  apply keeps_bind; [apply keeps_nowIso|]. intros c.
  apply keeps_bind; [apply keeps_nowIso|]. intros u.
  apply keeps_bind; [apply keeps_upsertResume|]. intros _.
  apply silent_keeps, silent_ret.
Qed.

Lemma keeps_upload_route b : keeps_seeded (upload_route clock random b).
Proof.
  unfold upload_route. cbn zeta.
  apply keeps_bind; [apply keeps_makeId|]. intros id.
  apply keeps_bind; [apply keeps_nowIso|]. intros c.
  apply keeps_bind; [apply keeps_nowIso|]. intros u.
  apply keeps_bind; [apply keeps_upsertResume|]. intros _.
  apply silent_keeps, silent_ret.
Qed.

Lemma keeps_update_route b : keeps_seeded (update_route clock b).
Proof.
  unfold update_route.
  apply keeps_bind; [apply silent_keeps, silent_lift|]. intros [[rid rd] img].
  destruct (negb (truthy_opt rid)); [apply silent_keeps, silent_throw|].
  apply keeps_bind; [apply silent_keeps, silent_findResume|]. intros existing.
  destruct (negb (truthy existing)); [apply silent_keeps, silent_throw|].
  apply keeps_bind; [apply silent_keeps, silent_lift|]. intros old.
  apply keeps_bind; [apply silent_keeps, silent_lift|]. intros new.
  apply keeps_bind; [apply keeps_nowIso|]. intros now.
  apply keeps_bind; [apply keeps_upsertResume|]. intros _.
  apply silent_keeps, silent_ret.
Qed.

(** The router after the seed step: the cascade of [handleRequest]. *)
Lemma handleRequest_seeded method url body w :
  handleRequest clock random method url body w
  = handleRequest clock random method url body (set_ls seed w).
Proof.
  unfold handleRequest.
  rewrite (bind_run _ _ _ _ _ (ensureSeed_run w)).
  rewrite (bind_run _ _ _ _ _ (ensureSeed_run (set_ls seed w))).
  unfold set_ls. cbn [ls tick]. by rewrite seed_idempotent.
Qed.

Lemma keeps_handleRequest method url body :
  keeps_seeded (handleRequest clock random method url body).
Proof.
  unfold handleRequest.
  apply keeps_bind; [apply silent_keeps, silent_ensureSeed|]. intros _.
  cbn zeta.
  apply keeps_if; [apply silent_keeps, silent_users_data|].
  apply keeps_if; [apply silent_keeps, silent_users_resumes|].
  apply keeps_if; [apply keeps_login_route|].
  apply keeps_if; [apply keeps_create_route|].
  apply keeps_if; [apply silent_keeps, silent_get_route|].
  apply keeps_if; [apply silent_keeps, silent_public_route|].
  apply keeps_if; [apply keeps_update_route|].
  apply keeps_if; [apply keeps_delete_route|].
  apply keeps_if; [apply silent_keeps, silent_enhance_route|].
  apply keeps_if; [apply silent_keeps, silent_enhance_route|].
  apply keeps_if; [apply keeps_upload_route|].
  apply silent_keeps, silent_throw.
Qed.

(** X1.  After a request, whatever its method, path, body and answer, the
    storage is seeded: it holds a user and a collection that read as truthy
    values and a token that is not empty, and the seed step of the next
    request changes nothing. *)
Theorem request_leaves_seeded method url body w :
  let w' := (handleRequest clock random method url body w).2 in
  seed (ls w') = ls w'
  /\ is_Some (stored (ls w') LS_KEYS.user)
  /\ text_truthy (ls w' !! LS_KEYS.token) = true
  /\ is_Some (stored (ls w') LS_KEYS.resumes).
Proof.
  intros w'.
  assert (H : seeded (ls w')).
  { unfold w'. rewrite handleRequest_seeded.
    apply keeps_handleRequest. apply seeded_seed. }
  split; [exact H|]. by apply seeded_slots.
Qed.

Lemma silent_get_requests url body :
  silent (handleRequest clock random "GET" url body).
Proof.
  unfold handleRequest.
  apply silent_bind; [apply silent_ensureSeed|]. intros _.
  cbn zeta.
  apply silent_if; [apply silent_users_data|].
  apply silent_if; [apply silent_users_resumes|].
  change (String.eqb "GET" "POST") with false.
  change (String.eqb "GET" "PUT") with false.
  change (String.eqb "GET" "DELETE") with false.
  cbn [andb].
  apply silent_if; [apply silent_get_route|].
  apply silent_if; [apply silent_public_route|].
  apply silent_throw.
Qed.

(** X2.  A GET request, whatever its path and its answer, and a request of one
    of the two enhancement routes, whatever its body, writes nothing but the
    defaults of the seed step and does not read the clock: on a seeded
    storage the world is left as it was. *)
Theorem reading_requests_write_nothing url body w :
  (handleRequest clock random "GET" url body w).2 = set_ls seed w
  /\ (handleRequest clock random "POST" (Some "/api/ai/enhance-pro-sum") body w).2
     = set_ls seed w
  /\ (handleRequest clock random "POST" (Some "/api/ai/enhance-job-desc") body w).2
     = set_ls seed w
  /\ (seed (ls w) = ls w ->
      (handleRequest clock random "GET" url body w).2 = w).
Proof.
  assert (Hget : (handleRequest clock random "GET" url body w).2 = set_ls seed w).
  { rewrite handleRequest_seeded. apply silent_get_requests. apply seeded_seed. }
  assert (Henh : forall p,
    p = "/api/ai/enhance-pro-sum" \/ p = "/api/ai/enhance-job-desc" ->
    (handleRequest clock random "POST" (Some p) body w).2 = set_ls seed w).
  { intros p Hp. unfold handleRequest.
    rewrite (bind_run _ _ _ _ _ (ensureSeed_run w)).
    assert (E : forall w0, (enhance_route body w0).2 = w0).
    { intros w0. unfold enhance_route, bind, lift, ret.
      by destruct (enhanceText _). }
    destruct Hp as [-> | ->]; apply E. }
  split; [exact Hget|]. split; [by apply Henh; left|]. split; [by apply Henh; right|].
  intros Hs. rewrite Hget. by apply set_ls_seeded.
Qed.

End Effects.


Lemma match_param_one_line p s :
  one_line s = true -> Str.match_param p (p +:+ s) = Some s.
Proof.
  unfold one_line. intros [H1 H2]%andb_true_iff. unfold Str.match_param.
  rewrite IdFacts.startsWith_app, IdFacts.drop_app. by rewrite H1, H2.
Qed.


Section Routes.
Variable clock : nat -> Z.
Variable random : nat -> list nat.

Lemma handleRequest_get_param p b w :
  one_line p = true ->
  handleRequest clock random "GET" (Some ("/api/resumes/get/" +:+ p)) b w
  = get_route p (set_ls seed w).
Proof.
  intros Hp. unfold handleRequest.
  rewrite (bind_run _ _ _ _ _ (ensureSeed_run w)).
  change (normalizeUrl (Some ("/api/resumes/get/" +:+ p)))
    with ("/api/resumes/get/" +:+ p).
  cbn zeta.
  change (String.eqb "GET" "GET") with true.
  change (String.eqb "GET" "POST") with false.
  change (String.eqb ("/api/resumes/get/" +:+ p) "/api/users/data") with false.
  change (String.eqb ("/api/resumes/get/" +:+ p) "/api/users/resumes") with false.
  cbn [andb].
  rewrite match_param_one_line by done.
  reflexivity.
Qed.


Lemma handleRequest_delete_param p b w :
  one_line p = true ->
  handleRequest clock random "DELETE" (Some ("/api/resumes/delete/" +:+ p)) b w
  = delete_route p (set_ls seed w).
Proof.
  intros Hp. unfold handleRequest.
  rewrite (bind_run _ _ _ _ _ (ensureSeed_run w)).
  change (normalizeUrl (Some ("/api/resumes/delete/" +:+ p)))
    with ("/api/resumes/delete/" +:+ p).
  cbn zeta.
  change (String.eqb "DELETE" "GET") with false.
  change (String.eqb "DELETE" "POST") with false.
  change (String.eqb "DELETE" "PUT") with false.
  change (String.eqb "DELETE" "DELETE") with true.
  cbn [andb].
  rewrite match_param_one_line by done.
  reflexivity.
Qed.

Lemma set_ls_seed_twice w : set_ls seed (set_ls seed w) = set_ls seed w.
Proof. unfold set_ls. cbn [ls tick]. by rewrite seed_idempotent. Qed.

Lemma get_route_run p b w l :
  one_line p = true ->
  collection (ls w) = VArr l -> no_null l = true ->
  handleRequest clock random "GET" (Some ("/api/resumes/get/" +:+ p)) b w
  = (match Platform.decodeURIComponent p with
     | None => Throw URIError
     | Some id =>
         match find_resume (Some (VStr id)) l with
         | Some r => Return (obj [("resume", r)])
         | None => Throw resume_not_found
         end
     end, set_ls seed w).
Proof.
  intros Hp Hc Hl. rewrite handleRequest_get_param by done.
  unfold get_route, decode_param.
  destruct (Platform.decodeURIComponent p) as [id|]; [|reflexivity].
  unfold bind at 1, ret at 1.
  assert (Hc' : collection (ls (set_ls seed w)) = VArr l)
    by (cbn; by rewrite collection_seed).
  destruct (find_resume (Some (VStr id)) l) as [r|] eqn:Hf.
  - destruct (find_resume_some _ _ _ Hf) as [Hm _].
    pose proof (found_truthy _ _ Hm) as Ht.
    assert (Hfound : or_else (find_resume (Some (VStr id)) l) VNull = r)
      by (rewrite Hf; cbn; by rewrite Ht).
    rewrite (bind_run _ _ _ _ _ (findResume_run _ _ _ Hc' Hl)).
    rewrite Hfound, Ht, set_ls_seed_twice. reflexivity.
  - rewrite (bind_run _ _ _ _ _ (findResume_run _ _ _ Hc' Hl)).
    rewrite Hf, set_ls_seed_twice. reflexivity.
Qed.


Lemma js_filter_run id l :
  no_null l = true ->
  js_filter (fun r => negb <$> has_id (Some (VStr id)) r) l = Return (without id l).
Proof.
  induction l as [|r l IH]; [done|]. cbn [no_null forallb].
  intros [Hr Hl]%andb_true_iff. cbn [js_filter without List.filter].
  rewrite has_id_run by (by destruct r). cbn.
  rewrite (IH Hl). cbn.
  by destruct (strict_eq (id_of r) (Some (VStr id))).
Qed.

Lemma no_null_without id l : no_null l = true -> no_null (without id l) = true.
Proof.
  induction l as [|r l IH]; [done|]. cbn.
  intros [Hr Hl]%andb_true_iff.
  destruct (strict_eq _ _); cbn; [by apply IH|]. rewrite Hr. by apply IH.
Qed.

Lemma find_without id l : find_resume (Some (VStr id)) (without id l) = None.
Proof.
  induction l as [|r l IH]; [done|]. cbn.
  destruct (strict_eq (id_of r) (Some (VStr id))) eqn:E; cbn; [done|].
  by rewrite E.
Qed.

Lemma without_absent id l :
  find_resume (Some (VStr id)) l = None -> without id l = l.
Proof.
  induction l as [|r l IH]; [done|]. cbn [find_resume List.find without List.filter].
  destruct (strict_eq (id_of r) (Some (VStr id))) eqn:E; cbn [negb]; [done|].
  intros H. fold (without id l). by rewrite IH.
Qed.

Lemma delete_route_run p id b w l :
  one_line p = true -> Platform.decodeURIComponent p = Some id ->
  collection (ls w) = VArr l -> no_null l = true ->
  handleRequest clock random "DELETE" (Some ("/api/resumes/delete/" +:+ p)) b w
  = (Return (obj [("message", VStr "Resume deleted")]),
     {| ls := <[LS_KEYS.resumes := Json (VArr (without id l))]> (seed (ls w));
        tick := tick w |}).
Proof.
  intros Hp Hd Hc Hl. rewrite handleRequest_delete_param by done.
  unfold delete_route, decode_param. rewrite Hd.
  unfold bind at 1, ret at 1.
  rewrite (bind_run _ _ _ _ _ (getResumes_run _)).
  cbn [set_ls ls]. rewrite collection_seed, Hc.
  unfold bind at 1, lift at 1. cbn [array_filter].
  rewrite js_filter_run by done. cbn.
  unfold set_ls. cbn. by rewrite seed_idempotent.
Qed.

Lemma users_data_run b w :
  handleRequest clock random "GET" (Some "/api/users/data") b w
  = (Return (obj [("user", default default_user (stored (ls w) LS_KEYS.user))]),
     set_ls seed w).
Proof.
  unfold handleRequest. rewrite (bind_run _ _ _ _ _ (ensureSeed_run w)).
  change (normalizeUrl (Some "/api/users/data")) with "/api/users/data".
  cbn zeta.
  change (String.eqb "GET" "GET" && String.eqb "/api/users/data" "/api/users/data")
    with true.
  cbn iota. unfold users_data_route.
  rewrite (bind_run _ _ _ _ _ (readJson_run _ _ _)).
  unfold ret. do 2 f_equal. unfold read_value. cbn [set_ls ls].
  rewrite seed_lookup. reflexivity.
Qed.

End Routes.



(** X5.  The delete route.  For a parameter that decodes to an id, on a
    collection without null entries: the request answers, and the
    collection becomes the stored resumes of another id, in their order; so
    no resume of that id is left, a collection without a resume of that id
    stays as it was, and fetching the id afterwards is rejected with status
    404. *)
Theorem delete_then_get clock random p id b w l :
  one_line p = true -> Platform.decodeURIComponent p = Some id ->
  collection (ls w) = VArr l -> no_null l = true ->
  exists w',
    handleRequest clock random "DELETE" (Some ("/api/resumes/delete/" +:+ p)) b w
    = (Return (obj [("message", VStr "Resume deleted")]), w')
    /\ collection (ls w') = VArr (without id l)
    /\ tick w' = tick w
    /\ find_resume (Some (VStr id)) (without id l) = None
    /\ (forall r, r ∈ without id l
                  <-> r ∈ l /\ strict_eq (id_of r) (Some (VStr id)) = false)
    /\ (find_resume (Some (VStr id)) l = None -> without id l = l)
    /\ (forall clock' random' b',
          handleRequest clock' random' "GET" (Some ("/api/resumes/get/" +:+ p)) b' w'
          = (Throw resume_not_found, w')).
Proof.
  intros Hp Hd Hc Hl.
  set (w' := {| ls := <[LS_KEYS.resumes := Json (VArr (without id l))]> (seed (ls w));
                tick := tick w |}).
  exists w'. split; [by apply delete_route_run|].
  assert (Hc' : collection (ls w') = VArr (without id l))
    by (by apply collection_insert).
  split; [exact Hc'|]. split; [done|]. split; [apply find_without|].
  split.
  { intros r. unfold without.
    rewrite (list_elem_of_In (List.filter _ l) r), (list_elem_of_In l r), filter_In.
    by rewrite negb_true_iff. }
  split; [apply without_absent|].
  intros clock' random' b'.
  rewrite (get_route_run clock' random' p b' w' (without id l) Hp Hc'
             (no_null_without _ _ Hl)).
  rewrite Hd, find_without. f_equal.
  unfold set_ls, w'. cbn [ls tick]. by rewrite seed_insert_resumes.
Qed.

(** X6.  The user route never answers a null user: it answers the stored
    user when the storage holds one that reads as a truthy value, and the
    default user otherwise, through the entry point as well. *)
Theorem users_data_never_null clock random b w :
  exists user,
    handleRequest clock random "GET" (Some "/api/users/data") b w
    = (Return (obj [("user", user)]), set_ls seed w)
    /\ api_get clock random (Some "/api/users/data") w
       = (Return (obj [("data", obj [("user", user)])]), set_ls seed w)
    /\ truthy user = true
    /\ (forall u, stored (ls w) LS_KEYS.user = Some u -> user = u)
    /\ (stored (ls w) LS_KEYS.user = None -> user = default_user).
Proof.
  exists (default default_user (stored (ls w) LS_KEYS.user)).
  split; [apply users_data_run|]. split.
  { unfold api_get, wrap_data, try_catch.
    rewrite (bind_run _ _ _ _ _ (users_data_run clock random NoBody w)).
    reflexivity. }
  split.
  { destruct (stored (ls w) LS_KEYS.user) as [u|] eqn:E; [|done].
    cbn. by eapply stored_truthy. }
  split; [by intros u ->|by intros ->].
Qed.


Lemma opt_trim_or x d :
  trimmable x = true ->
  exists t, opt_trim x = Return t /\ or_else t (VStr d) = VStr (trimmed_or x d).
Proof.
  destruct x as [[| | |s| |]|]; try done; cbn; intros _.
  - by exists None.
  - exists (Some (VStr (Str.trim s))). split; [done|]. cbn.
    by destruct (String.eqb (Str.trim s) "").
  - by exists None.
Qed.

Lemma opt_trim_throw x : trimmable x = false -> opt_trim x = Throw TypeError.
Proof. by destruct x as [[| | |s| |]|]. Qed.

Section Login.
Variable clock : nat -> Z.
Variable random : nat -> list nat.

Lemma handleRequest_login path b w :
  login_path path = true ->
  handleRequest clock random "POST" (Some path) b w
  = login_route path b (set_ls seed w).
Proof.
  intros Hp. unfold handleRequest.
  rewrite (bind_run _ _ _ _ _ (ensureSeed_run w)).
  apply orb_true_iff in Hp as [->%String.eqb_eq | ->%String.eqb_eq]; reflexivity.
Qed.

Lemma login_route_run path b w :
  trimmable (body_prop b "name") = true ->
  trimmable (body_prop b "email") = true ->
  login_route path b w
  = (Return (obj [("token", VStr "local_token"); ("user", login_user b);
                  ("message", VStr (if Str.endsWith "register" path
                                    then "Registered (local)"
                                    else "Logged in (local)"))]),
     set_ls (fun s => <[LS_KEYS.token := Raw "local_token"]>
                        (<[LS_KEYS.user := Json (login_user b)]> s)) w).
Proof.
  intros Hn He. unfold login_route. cbn zeta.
  destruct (opt_trim_or _ "Joe Doe" Hn) as (n & -> & En).
  destruct (opt_trim_or _ "joe@example.com" He) as (e & -> & Ee).
  unfold bind at 1, lift at 1. unfold bind at 1, lift at 1.
  rewrite En, Ee. reflexivity.
Qed.

End Login.

Lemma collection_login s u t :
  truthy u = true -> text_truthy (Some t) = true ->
  collection (<[LS_KEYS.token := t]> (<[LS_KEYS.user := Json u]> (seed s)))
  = collection s.
Proof.
  intros Hu Ht.
  pose proof (seeded_insert_token _ t Ht
                (seeded_insert_user _ u Hu (seeded_seed s))) as Hs.
  unfold collection. rewrite Hs.
  rewrite (stored_ext _ (seed s) LS_KEYS.resumes); [done|].
  by rewrite !lookup_insert_ne.
Qed.

(** X7.  Logging in or registering.  With a body whose [name] and [email]
    are strings or missing, the request answers the token, a message that
    tells the two routes apart, and the user: the id of the local user, the
    trimmed name and email, or the defaults where none is given or nothing
    is left of it.  The user and the token are stored, the collection is
    left as it was, and the user route then answers that user.  When
    [name] or [email] is of another type the request fails with a
    TypeError and nothing but the seed is written. *)
Theorem login_then_user clock random path b w :
  login_path path = true ->
  (trimmable (body_prop b "name") = true ->
   trimmable (body_prop b "email") = true ->
   exists w',
     handleRequest clock random "POST" (Some path) b w
     = (Return (obj [("token", VStr "local_token"); ("user", login_user b);
                     ("message",
                      VStr (if String.eqb path "/api/users/register"
                            then "Registered (local)" else "Logged in (local)"))]),
        w')
     /\ ls w' !! LS_KEYS.user = Some (Json (login_user b))
     /\ ls w' !! LS_KEYS.token = Some (Raw "local_token")
     /\ collection (ls w') = collection (ls w)
     /\ (forall clock' random' b',
           handleRequest clock' random' "GET" (Some "/api/users/data") b' w'
           = (Return (obj [("user", login_user b)]), w')))
  /\ (trimmable (body_prop b "name") = false
      \/ trimmable (body_prop b "email") = false ->
      handleRequest clock random "POST" (Some path) b w
      = (Throw TypeError, set_ls seed w)).
Proof.
  intros Hp. split.
  - intros Hn He.
    set (f := fun s : gmap string text =>
                <[LS_KEYS.token := Raw "local_token"]>
                  (<[LS_KEYS.user := Json (login_user b)]> s)).
    exists (set_ls f (set_ls seed w)).
    assert (Hs : seeded (f (seed (ls w)))).
    { apply seeded_insert_token; [done|].
      apply seeded_insert_user; [done|]. apply seeded_seed. }
    split.
    { rewrite handleRequest_login by done. rewrite login_route_run by done.
      apply orb_true_iff in Hp as [->%String.eqb_eq | ->%String.eqb_eq];
        reflexivity. }
    split; [cbn; unfold f; by rewrite lookup_insert_ne, lookup_insert_eq|].
    split; [cbn; unfold f; by rewrite lookup_insert_eq|].
    split; [cbn; unfold f; by apply collection_login|].
    intros clock' random' b'. rewrite users_data_run.
    cbn [set_ls ls tick]. f_equal.
    + unfold stored, f.
      rewrite lookup_insert_ne, lookup_insert_eq by done. reflexivity.
    + unfold set_ls. cbn [ls tick]. by rewrite Hs.
  - intros Hbad. rewrite handleRequest_login by done.
    unfold login_route. cbn zeta.
    destruct (trimmable (body_prop b "name")) eqn:Hn.
    + destruct Hbad as [|He]; [done|].
      destruct (opt_trim_or _ "Joe Doe" Hn) as (n & -> & _).
      by rewrite (opt_trim_throw _ He).
    + by rewrite (opt_trim_throw _ Hn).
Qed.



Lemma take_all n s : (String.length s <= n)%nat -> Str.take n s = s.
Proof.
  revert s. induction n as [|n IH]; intros [|c s]; cbn; try done; try lia.
  intros H. rewrite IH; [done|lia].
Qed.


Section Upload.
Variable clock : nat -> Z.
Variable random : nat -> list nat.


End Upload.


(** X9.  The leading slash of a path is optional.  The normalized path
    starts with a slash and normalizing again changes nothing; a path
    without its leading slash, and no path at all or an empty one, are
    routed as the path with the slash and as the root. *)
Theorem normalizeUrl_slash :
  (forall url, Str.startsWith "/" (normalizeUrl url) = true
               /\ normalizeUrl (Some (normalizeUrl url)) = normalizeUrl url)
  /\ (forall u, Str.startsWith "/" u = true -> normalizeUrl (Some u) = u)
  /\ (forall clock random method u b w,
        u <> "" -> Str.startsWith "/" u = false ->
        handleRequest clock random method (Some u) b w
        = handleRequest clock random method (Some ("/" +:+ u)) b w)
  /\ (forall clock random method b w,
        handleRequest clock random method None b w
        = handleRequest clock random method (Some "/") b w
        /\ handleRequest clock random method (Some "") b w
           = handleRequest clock random method (Some "/") b w).
Proof.
  assert (H1 : forall u, Str.startsWith "/" u = true -> normalizeUrl (Some u) = u).
  { intros u Hu. unfold normalizeUrl. rewrite Hu. by destruct u. }
  assert (H2 : forall url, Str.startsWith "/" (normalizeUrl url) = true).
  { intros [u|]; [|done]. unfold normalizeUrl.
    destruct (String.eqb u ""); [done|].
    by destruct (Str.startsWith "/" u) eqn:E. }
  split; [|split; [exact H1|split]].
  - intros url. split; [apply H2|]. by apply H1.
  - intros clock random method u b w Hne Hu. unfold handleRequest.
    assert (E : normalizeUrl (Some u) = normalizeUrl (Some ("/" +:+ u))).
    { unfold normalizeUrl at 1. rewrite Hu.
      apply String.eqb_neq in Hne as ->. by rewrite H1. }
    by rewrite E.
  - by intros clock random method b w.
Qed.


Lemma timed_no_null l : timed l = true -> no_null l = true.
Proof.
  induction l as [|r l IH]; [done|]. cbn.
  intros [[Hr _]%andb_true_iff Hl]%andb_true_iff. rewrite Hr. by apply IH.
Qed.

Lemma timed_upsert u l :
  timed [VObj u] = true -> timed l = true -> timed (upsert u l) = true.
Proof.
  intros Hu. induction l as [|r l IH]; [done|]. rewrite upsert_cons.
  rewrite (timed_cons r l). intros [Hr Hl]%andb_true_iff.
  destruct (strict_eq (id_of r) (u !! "_id")).
  - by rewrite timed_cons, Hu, Hl.
  - by rewrite timed_cons, Hr, IH.
Qed.

Lemma timed_without id l : timed l = true -> timed (without id l) = true.
Proof.
  induction l as [|r l IH]; [done|]. rewrite (timed_cons r l).
  intros [Hr Hl]%andb_true_iff. cbn [without List.filter].
  destruct (negb _); [|by apply IH].
  fold (without id l). by rewrite timed_cons, Hr, IH.
Qed.

Lemma silent_keeps_dated {A} (c : M A) : silent c -> keeps_dated c.
Proof. intros H w Hw Hd. by rewrite (H w Hw). Qed.

Lemma keeps_dated_bind {A B} (c : M A) (k : A -> M B) (R : A -> Prop) :
  keeps_dated c -> (forall w a, (c w).1 = Return a -> R a) ->
  (forall a, R a -> keeps_dated (k a)) -> keeps_dated (bind c k).
Proof.
  intros Hc HR Hk w Hw Hd. unfold bind.
  specialize (Hc w Hw Hd). specialize (HR w).
  destruct (c w) as [[a|e] w1]; cbn in *; [|done].
  destruct Hc. by apply (Hk a (HR a eq_refl)).
Qed.

Lemma keeps_dated_bind' {A B} (c : M A) (k : A -> M B) :
  keeps_dated c -> (forall a, keeps_dated (k a)) -> keeps_dated (bind c k).
Proof.
  intros Hc Hk. by apply (keeps_dated_bind c k (fun _ => True)).
Qed.

Lemma keeps_dated_if {A} (b : bool) (c1 c2 : M A) :
  keeps_dated c1 -> keeps_dated c2 -> keeps_dated (if b then c1 else c2).
Proof. by destruct b. Qed.

Lemma keeps_dated_upsertResume u :
  timed [VObj u] = true -> keeps_dated (upsertResume u).
Proof.
  intros Hu w Hw (l & Hc & Hl).
  rewrite (upsertResume_run u w l Hc (timed_no_null _ Hl)).
  unfold set_ls. cbn [snd ls]. unfold seeded in Hw.
  split; [rewrite Hw; by apply seeded_insert_resumes|].
  exists (upsert u l). split; [|by apply timed_upsert].
  by apply collection_insert.
Qed.

Lemma delete_route_world p id w l :
  Platform.decodeURIComponent p = Some id ->
  collection (ls w) = VArr l -> no_null l = true ->
  delete_route p w
  = (Return (obj [("message", VStr "Resume deleted")]),
     {| ls := <[LS_KEYS.resumes := Json (VArr (without id l))]> (seed (ls w));
        tick := tick w |}).
Proof.
  intros Hd Hc Hl. unfold delete_route, decode_param. rewrite Hd.
  unfold bind at 1, ret at 1.
  rewrite (bind_run _ _ _ _ _ (getResumes_run _)), Hc.
  unfold bind at 1, lift at 1. cbn [array_filter].
  rewrite js_filter_run by done. reflexivity.
Qed.

Lemma keeps_dated_delete p : keeps_dated (delete_route p).
Proof.
  intros w Hw (l & Hc & Hl).
  destruct (Platform.decodeURIComponent p) as [id|] eqn:Hd.
  - rewrite (delete_route_world p id w l Hd Hc (timed_no_null _ Hl)).
    cbn [snd ls]. unfold seeded in Hw.
    split; [rewrite Hw; by apply seeded_insert_resumes|].
    exists (without id l). split; [|by apply timed_without].
    by apply collection_insert.
  - unfold delete_route, decode_param. rewrite Hd. by (split; [|exists l]).
Qed.

Lemma keeps_dated_login path b : keeps_dated (login_route path b).
Proof.
  intros w Hw (l & Hc & Hl). unfold login_route. cbn zeta.
  unfold bind at 1, lift at 1.
  destruct (opt_trim (body_prop b "name")) as [n|]; [|by (split; [|exists l])].
  unfold bind at 1, lift at 1.
  destruct (opt_trim (body_prop b "email")) as [e|]; [|by (split; [|exists l])].
  cbn. split.
  - apply seeded_insert_token; [done|]. by apply seeded_insert_user.
  - exists l. split; [|done]. rewrite <- Hc.
    unfold seeded in Hw. rewrite <- Hw at 1. by apply collection_login.
Qed.

Section Dated.
Variable clock : nat -> Z.
Variable random : nat -> list nat.
Hypothesis Hclock : iso_clock clock.

Lemma iso_reading_time s : (iso_reading clock) s -> is_Some (Platform.date_parse s).
Proof. intros [n ->]. rewrite DateFacts.date_roundtrip; [done|apply Hclock]. Qed.

Lemma keeps_dated_nowIso : keeps_dated (nowIso clock).
Proof. by intros w Hw Hd. Qed.

Lemma nowIso_reading w a : (nowIso clock w).1 = Return a -> (iso_reading clock) a.
Proof. intros [= <-]. by eexists. Qed.

Lemma keeps_dated_makeId prefix : keeps_dated (makeId clock random prefix).
Proof. by intros w Hw Hd. Qed.

Lemma timed_new_resume id title summary c u :
  (iso_reading clock) u -> timed [VObj (new_resume id title summary c u)] = true.
Proof.
  intros Hu%iso_reading_time. cbn [timed forallb is_null negb andb].
  rewrite andb_true_r. apply bool_decide_eq_true. exact Hu.
Qed.

Lemma keeps_dated_create b : keeps_dated (create_route clock random b).
Proof.
  unfold create_route. cbn zeta.
  apply keeps_dated_bind'; [apply keeps_dated_makeId|]. intros id.
  apply keeps_dated_bind'; [apply keeps_dated_nowIso|]. intros c.
  apply (keeps_dated_bind _ _ (iso_reading clock));
    [apply keeps_dated_nowIso|apply nowIso_reading|]. intros u Hu.
  apply keeps_dated_bind';
    [by apply keeps_dated_upsertResume, timed_new_resume|]. intros _.
  apply silent_keeps_dated, silent_ret.
Qed.

Lemma keeps_dated_upload b : keeps_dated (upload_route clock random b).
Proof.
  unfold upload_route. cbn zeta.
  apply keeps_dated_bind'; [apply keeps_dated_makeId|]. intros id.
  apply keeps_dated_bind'; [apply keeps_dated_nowIso|]. intros c.
  apply (keeps_dated_bind _ _ (iso_reading clock));
    [apply keeps_dated_nowIso|apply nowIso_reading|]. intros u Hu.
  apply keeps_dated_bind';
    [by apply keeps_dated_upsertResume, timed_new_resume|]. intros _.
  apply silent_keeps_dated, silent_ret.
Qed.

Lemma timed_merged existing rd old new now img :
  (iso_reading clock) now ->
  timed [VObj (with_image img (merged existing rd old new now))] = true.
Proof.
  intros Hu%iso_reading_time. cbn [timed forallb is_null negb andb].
  rewrite andb_true_r. apply bool_decide_eq_true.
  unfold updated_time. cbn [own_props].
  rewrite with_image_lookup by done. unfold merged.
  rewrite lookup_insert_eq. exact Hu.
Qed.

Lemma keeps_dated_update b : keeps_dated (update_route clock b).
Proof.
  unfold update_route.
  apply keeps_dated_bind'; [apply silent_keeps_dated, silent_lift|].
  intros [[rid rd] img].
  destruct (negb (truthy_opt rid)); [apply silent_keeps_dated, silent_throw|].
  apply keeps_dated_bind'; [apply silent_keeps_dated, silent_findResume|].
  intros existing.
  destruct (negb (truthy existing)); [apply silent_keeps_dated, silent_throw|].
  apply keeps_dated_bind'; [apply silent_keeps_dated, silent_lift|]. intros old.
  apply keeps_dated_bind'; [apply silent_keeps_dated, silent_lift|]. intros new.
  apply (keeps_dated_bind _ _ (iso_reading clock));
    [apply keeps_dated_nowIso|apply nowIso_reading|]. intros now Hnow.
  apply keeps_dated_bind';
    [by apply keeps_dated_upsertResume, timed_merged|]. intros _.
  apply silent_keeps_dated, silent_ret.
Qed.

Lemma keeps_dated_handleRequest method url body :
  keeps_dated (handleRequest clock random method url body).
Proof.
  unfold handleRequest.
  apply keeps_dated_bind'; [apply silent_keeps_dated, silent_ensureSeed|]. intros _.
  cbn zeta.
  apply keeps_dated_if; [apply silent_keeps_dated, silent_users_data|].
  apply keeps_dated_if; [apply silent_keeps_dated, silent_users_resumes|].
  apply keeps_dated_if; [apply keeps_dated_login|].
  apply keeps_dated_if; [apply keeps_dated_create|].
  apply keeps_dated_if; [apply silent_keeps_dated, silent_get_route|].
  apply keeps_dated_if; [apply silent_keeps_dated, silent_public_route|].
  apply keeps_dated_if; [apply keeps_dated_update|].
  apply keeps_dated_if; [apply keeps_dated_delete|].
  apply keeps_dated_if; [apply silent_keeps_dated, silent_enhance_route|].
  apply keeps_dated_if; [apply silent_keeps_dated, silent_enhance_route|].
  apply keeps_dated_if; [apply keeps_dated_upload|].
  apply silent_keeps_dated, silent_throw.
Qed.

Lemma dated_seed s : dated s -> dated (seed s).
Proof. intros (l & Hc & Hl). exists l. by rewrite collection_seed. Qed.

Lemma request_keeps_dated method url body w :
  dated (ls w) -> dated (ls (handleRequest clock random method url body w).2).
Proof.
  intros Hd. rewrite handleRequest_seeded.
  apply keeps_dated_handleRequest; [apply seeded_seed|by apply dated_seed].
Qed.

Lemma run_keeps_dated rs w :
  dated (ls w) -> dated (ls (run_requests clock random rs w)).
Proof.
  revert w. induction rs as [|[[m u] b] rs IH]; intros w Hd; [done|].
  cbn. apply IH. by apply request_keeps_dated.
Qed.

End Dated.

Lemma dated_empty : dated ∅.
Proof. by exists []. Qed.

(** X10.  The resumes the shim stores are dated.  With a clock whose readings
    are written with a four-digit year, a request of any method, path and
    body, whatever it answers, leaves a collection whose entries are not
    null and have an [updatedAt] with a time value when it found one; so
    after any run of requests on an empty storage the list route answers
    the whole collection, newest first. *)
Theorem requests_keep_dated clock random :
  iso_clock clock ->
  (forall method url body w,
     dated (ls w) -> dated (ls (handleRequest clock random method url body w).2))
  /\ (forall rs,
        let w := run_requests clock random rs fresh in
        exists l l',
          collection (ls w) = VArr l /\ timed l = true
          /\ get_resumes clock random w
             = (Return (obj [("resumes", VArr l')]), set_ls seed w)
          /\ l' ≡ₚ l /\ StronglySorted newer_first l').
Proof.
  intros Hclock. split; [intros; by apply request_keeps_dated|].
  intros rs w.
  destruct (run_keeps_dated clock random Hclock rs fresh dated_empty)
    as (l & Hc & Hl).
  exists l, (sort_desc l). split; [exact Hc|]. split; [exact Hl|].
  split; [by apply get_resumes_run|].
  split; [apply sort_desc_perm|apply sort_desc_sorted].
Qed.


Lemma strict_eq_str_refl s : strict_eq (Some (VStr s)) (Some (VStr s)) = true.
Proof. cbn. apply String.eqb_refl. Qed.

Lemma find_upsert_other u l id id' :
  u !! "_id" = Some (VStr id) -> id' <> id ->
  find_resume (Some (VStr id')) (upsert u l) = find_resume (Some (VStr id')) l.
Proof.
  intros Hu Hne.
  assert (Hu' : strict_eq (id_of (VObj u)) (Some (VStr id')) = false).
  { unfold id_of. cbn [own_props]. rewrite Hu. cbn.
    by apply String.eqb_neq. }
  induction l as [|r l IH].
  - unfold upsert. cbn [find_index app find_resume List.find]. by rewrite Hu'.
  - rewrite upsert_cons.
    destruct (strict_eq (id_of r) (u !! "_id")) eqn:E.
    + cbn [find_resume List.find]. rewrite Hu'.
      apply strict_eq_eq in E. rewrite E, Hu. cbn.
      assert (id <> id') as ->%String.eqb_neq by congruence. done.
    + cbn [find_resume List.find].
      destruct (strict_eq (id_of r) (Some (VStr id'))); [done|]. exact IH.
Qed.

Lemma upsert_ids u l :
  map id_of (upsert u l) = map id_of l
  \/ (find_resume (u !! "_id") l = None
      /\ map id_of (upsert u l) = (map id_of l ++ [u !! "_id"])%list).
Proof.
  destruct (upsert_shape u l) as [(i & r & Hi & Hf & Hr & ->)|[Hn ->]].
  - left. apply list_eq. intros j. rewrite !list_lookup_fmap.
    destruct (decide (j = i)) as [->|Hne].
    + rewrite list_lookup_insert_eq by (by eapply lookup_lt_Some).
      rewrite Hr. cbn.
      destruct (find_index_some _ _ _ Hi) as (x & Hx & Hid%strict_eq_eq & _).
      rewrite Hr in Hx. injection Hx as <-. by rewrite Hid.
    + by rewrite list_lookup_insert_ne.
  - right. split; [done|]. by rewrite map_app.
Qed.

Lemma find_none_not_in id l :
  find_resume (Some (VStr id)) l = None -> Some (VStr id) ∉ map id_of l.
Proof.
  induction l as [|r l IH]; [intros _; by apply not_elem_of_nil|].
  cbn [find_resume List.find map].
  destruct (strict_eq (id_of r) (Some (VStr id))) eqn:E; [done|].
  intros H. apply not_elem_of_cons. split; [|by apply IH].
  intros Heq. rewrite <- Heq in E. by rewrite strict_eq_str_refl in E.
Qed.

(** X11.  [upsertResume] as a store of resumes by id.  On a collection
    without null entries, storing a resume whose id is a string returns;
    the resume is then the one found under its id, what is found under
    every other id is what was found before, and ids that were pairwise
    distinct still are. *)
Theorem upsertResume_by_id u id w l :
  u !! "_id" = Some (VStr id) ->
  collection (ls w) = VArr l -> no_null l = true ->
  exists w',
    upsertResume u w = (Return (), w')
    /\ collection (ls w') = VArr (upsert u l)
    /\ no_null (upsert u l) = true
    /\ find_resume (Some (VStr id)) (upsert u l) = Some (VObj u)
    /\ (forall id', id' <> id ->
          find_resume (Some (VStr id')) (upsert u l)
          = find_resume (Some (VStr id')) l)
    /\ (NoDup (map id_of l) -> NoDup (map id_of (upsert u l)))
    /\ (List.length (upsert u l) = List.length l
        \/ List.length (upsert u l) = S (List.length l)).
Proof.
  intros Hu Hc Hl. eexists. split; [by apply upsertResume_run|].
  split; [cbn [ls set_ls]; by apply collection_insert|].
  split; [by apply no_null_upsert|].
  split; [rewrite <- Hu; apply find_upsert; rewrite Hu; apply strict_eq_str_refl|].
  split; [intros id'; by apply find_upsert_other|].
  split.
  - intros Hnd. destruct (upsert_ids u l) as [->|[Hn ->]]; [done|].
    apply NoDup_app. split; [done|]. split; [|apply NoDup_singleton].
    intros x Hx ->%list_elem_of_singleton. rewrite Hu in Hn, Hx.
    by apply (find_none_not_in _ _ Hn).
  - destruct (upsert_shape u l) as [(i & r & _ & _ & _ & ->)|[_ ->]].
    + left. by rewrite length_insert.
    + right. rewrite length_app. cbn. lia.
Qed.


(** ** The auth slice and the storage of the shim *)

Section AuthFacts.
Import AuthSlice.





(** A session at sample inputs. *)



End AuthFacts.

(** ** The entry points, and an id made twice *)

Lemma wrap_data_run c w :
  wrap_data c w
  = match c w with
    | (Return v, w') => (Return (obj [("data", v)]), w')
    | (Throw e, w') => (Throw e, w')
    end.
Proof.
  unfold wrap_data, try_catch, bind, ret, throw.
  by destruct (c w) as [[v|e] w'].
Qed.

Lemma handleRequest_get_body clock random url b w :
  handleRequest clock random "GET" url b w
  = handleRequest clock random "GET" url NoBody w.
Proof.
  unfold handleRequest.
  change (String.eqb "GET" "POST") with false.
  change (String.eqb "GET" "PUT") with false.
  change (String.eqb "GET" "DELETE") with false.
  reflexivity.
Qed.

Lemma handleRequest_delete_body clock random url b w :
  handleRequest clock random "DELETE" url b w
  = handleRequest clock random "DELETE" url NoBody w.
Proof.
  unfold handleRequest.
  change (String.eqb "DELETE" "POST") with false.
  change (String.eqb "DELETE" "PUT") with false.
  change (String.eqb "DELETE" "GET") with false.
  reflexivity.
Qed.

(** X14.  The four entry points.  Each answers [{data}] with the answer of
    the router and rejects with the very error of the router, leaving the
    world the router left.  [get] and [delete] pass no body, and lose
    nothing by it: a GET or DELETE request is handled the same whatever its
    body. *)
Theorem entry_points clock random url b w :
  api_get clock random url w = wrapped (handleRequest clock random "GET" url b w)
  /\ api_delete clock random url w
     = wrapped (handleRequest clock random "DELETE" url b w)
  /\ api_post clock random url b w
     = wrapped (handleRequest clock random "POST" url b w)
  /\ api_put clock random url b w
     = wrapped (handleRequest clock random "PUT" url b w)
  /\ (forall e w', handleRequest clock random "PUT" url b w = (Throw e, w') ->
        api_put clock random url b w = (Throw e, w'))
  /\ (forall v w', handleRequest clock random "POST" url b w = (Return v, w') ->
        api_post clock random url b w = (Return (obj [("data", v)]), w')).
Proof.
  unfold api_get, api_delete, api_post, api_put. rewrite !wrap_data_run.
  rewrite (handleRequest_get_body clock random url b).
  rewrite (handleRequest_delete_body clock random url b).
  repeat split; try done.
  - by intros e w' ->.
  - by intros v w' ->.
Qed.



(** ** The further properties at sample inputs *)

Lemma two_resumes_collection :
  collection (ls two_resumes) = VArr [sample_resume; second_resume].
Proof. vm_compute. reflexivity. Qed.

Lemma frozen_clock_iso : iso_clock frozen_clock.
Proof.
  intros n. unfold frozen_clock, Platform.min_iso_time, Platform.max_iso_time. lia.
Defined.

Lemma request_leaves_seeded_witness :
  let w' := (handleRequest frozen_clock sample_random "DELETE" (Some "nowhere")
               NoBody fresh).2 in
  seed (ls w') = ls w' /\ is_Some (stored (ls w') LS_KEYS.user).
Proof.
  destruct (request_leaves_seeded frozen_clock sample_random "DELETE"
              (Some "nowhere") NoBody fresh) as (H1 & H2 & _).
  split; [exact H1|exact H2].
Defined.

Lemma reading_requests_write_nothing_witness :
  (handleRequest frozen_clock sample_random "GET" (Some "/api/resumes/get/r1")
     NoBody (run_seed two_resumes)).2 = run_seed two_resumes.
Proof.
  apply (reading_requests_write_nothing frozen_clock sample_random
           (Some "/api/resumes/get/r1") NoBody (run_seed two_resumes)).
  vm_compute. reflexivity.
Defined.



Lemma delete_then_get_witness :
  exists w',
    handleRequest frozen_clock sample_random "DELETE"
      (Some "/api/resumes/delete/r1") NoBody two_resumes
    = (Return (obj [("message", VStr "Resume deleted")]), w')
    /\ collection (ls w') = VArr [second_resume]
    /\ handleRequest frozen_clock sample_random "GET"
         (Some "/api/resumes/get/r1") NoBody w'
       = (Throw resume_not_found, w').
Proof.
  destruct (delete_then_get frozen_clock sample_random "r1" "r1" NoBody two_resumes
              [sample_resume; second_resume] eq_refl eq_refl
              two_resumes_collection eq_refl)
    as (w' & Hrun & Hc & _ & _ & _ & _ & Hget).
  exists w'. split; [exact Hrun|]. split; [exact Hc|]. apply Hget.
Defined.

Lemma login_then_user_witness :
  exists w',
    handleRequest frozen_clock sample_random "POST" (Some "/api/users/register")
      ann_body fresh
    = (Return (obj [("token", VStr "local_token");
                    ("user", obj [("_id", VStr "local_user");
                                  ("name", VStr "Ann Lee");
                                  ("email", VStr "joe@example.com")]);
                    ("message", VStr "Registered (local)")]), w')
    /\ handleRequest frozen_clock sample_random "GET" (Some "/api/users/data")
         NoBody w'
       = (Return (obj [("user", obj [("_id", VStr "local_user");
                                     ("name", VStr "Ann Lee");
                                     ("email", VStr "joe@example.com")])]), w').
Proof.
  destruct (login_then_user frozen_clock sample_random "/api/users/register"
              ann_body fresh eq_refl) as [Hok _].
  destruct (Hok eq_refl eq_refl) as (w' & Hrun & _ & _ & _ & Hget).
  exists w'. split; [exact Hrun|]. apply Hget.
Defined.


Lemma normalizeUrl_slash_witness :
  handleRequest frozen_clock sample_random "GET" (Some "api/users/data") NoBody fresh
  = handleRequest frozen_clock sample_random "GET" (Some "/api/users/data") NoBody fresh.
Proof.
  destruct normalizeUrl_slash as (_ & _ & H & _).
  apply (H frozen_clock sample_random "GET" "api/users/data" NoBody fresh);
    [discriminate|reflexivity].
Defined.

Lemma requests_keep_dated_witness :
  iso_clock frozen_clock
  /\ exists l l',
       collection (ls (run_requests frozen_clock sample_random sample_requests fresh))
       = VArr l
       /\ timed l = true
       /\ get_resumes frozen_clock sample_random
            (run_requests frozen_clock sample_random sample_requests fresh)
          = (Return (obj [("resumes", VArr l')]),
             set_ls seed (run_requests frozen_clock sample_random sample_requests fresh))
       /\ StronglySorted newer_first l'.
Proof.
  split; [exact frozen_clock_iso|].
  destruct (proj2 (requests_keep_dated frozen_clock sample_random frozen_clock_iso)
              sample_requests) as (l & l' & Hc & Hl & Hrun & _ & Hs).
  exists l, l'. split; [exact Hc|]. split; [exact Hl|].
  split; [exact Hrun|exact Hs].
Defined.

Lemma upsertResume_by_id_witness :
  exists w',
    upsertResume (own_props second_resume) two_resumes = (Return (), w')
    /\ collection (ls w') = VArr [sample_resume; second_resume]
    /\ find_resume (Some (VStr "r1")) (upsert (own_props second_resume)
                                         [sample_resume; second_resume])
       = Some sample_resume.
Proof.
  destruct (upsertResume_by_id (own_props second_resume) "r2" two_resumes
              [sample_resume; second_resume] eq_refl two_resumes_collection eq_refl)
    as (w' & Hrun & Hc & _ & _ & Hother & _).
  exists w'. split; [exact Hrun|]. split.
  - rewrite Hc. vm_compute. reflexivity.
  - rewrite (Hother "r1") by discriminate. reflexivity.
Defined.

Lemma entry_points_witness :
  api_put frozen_clock sample_random (Some "/api/resumes/update") NoBody sample_world
  = (Throw (Rejected (axiosLikeError "resumeId is required" (Some 400))),
     set_ls seed sample_world).
Proof.
  destruct (entry_points frozen_clock sample_random (Some "/api/resumes/update")
              NoBody sample_world) as (_ & _ & _ & _ & Hput & _).
  apply Hput. vm_compute. reflexivity.
Defined.



(** ** The platform functions at sample inputs *)

Example toISOString_sample :
  Platform.toISOString 1700000000123 = "2023-11-14T22:13:20.123Z".
Proof. vm_compute. reflexivity. Qed.

Example toISOString_before_epoch :
  Platform.toISOString (-1) = "1969-12-31T23:59:59.999Z".
Proof. vm_compute. reflexivity. Qed.

Example date_parse_sample :
  Platform.date_parse "2023-11-14T22:13:20.123Z" = Some 1700000000123.
Proof. vm_compute. reflexivity. Qed.

Example toString36_sample : Platform.toString36 1700000000123 = "loyw3v5n".
Proof. vm_compute. reflexivity. Qed.

Example decodeURIComponent_sample :
  Platform.decodeURIComponent "a%20b%C3%A9"
  = Some ("a b" +:+ String (ascii_of_nat 233) "").
Proof. vm_compute. reflexivity. Qed.

Example decodeURIComponent_malformed : Platform.decodeURIComponent "100%" = None.
Proof. vm_compute. reflexivity. Qed.

